(** * The reconciliation engine of the M3DB operator

    A shallow embedding of [pkg/controller/controller.go]: the cluster
    handler [handleClusterUpdate], the pod handler [handlePodUpdate] and the
    informer callbacks registered by [New].

    The controller talks to three collaborators: the platform (Kubernetes
    API and informer caches), the DB admin API, and the event recorder.
    Every handler is embedded as a function of an environment [Env], which
    answers each outgoing call, to the list of calls it issued (its
    trace) and the way the Go function ended (a returned error value or a
    run-time panic). *)

From stdpp Require Import base strings list gmap pretty.
From Stdlib Require Import ZArith Lia Ascii Sorted.

(** ** Go base types *)

(** A Go [error] is identified with its message; [None] is [nil]. *)
Definition error := string.

Definition int32_min : Z := (- 2 ^ 31)%Z.
Definition int32_max : Z := (2 ^ 31 - 1)%Z.

(** The conversion [int32(x)], also the result of 32-bit signed arithmetic:
    wrap around modulo 2^32. *)
Definition int32 (z : Z) : Z := ((z + 2 ^ 31) mod 2 ^ 32 - 2 ^ 31)%Z.

Definition int32_range (z : Z) : Prop := (int32_min <= z <= int32_max)%Z.

(** A call that returns [(value, error)]. *)
Inductive result (A : Type) : Type :=
| Ok (a : A)
| Err (e : error).
Arguments Ok {A} a.
Arguments Err {A} e.

(** ** Kubernetes objects (the fields the controller reads) *)

Module OwnerReference.
Record t := {
  Kind : string;
  Name : string;
  UID : string;
  Controller : option bool   (* *bool *)
}.
End OwnerReference.

Module ObjectMeta.
Record t := {
  Name : string;
  Namespace : string;
  UID : string;
  ResourceVersion : string;
  Generation : Z;
  Labels : gmap string string;
  Annotations : gmap string string;
  OwnerReferences : list OwnerReference.t
}.
End ObjectMeta.

(** [appsv1.StatefulSet]: [Spec.Replicas] is a [*int32], [nil] is [None]. *)
Module StatefulSet.
Record t := {
  ObjectMeta : ObjectMeta.t;
  Spec_Replicas : option Z;
  Status_ReadyReplicas : Z
}.
Definition Name (s : t) : string := ObjectMeta.Name (ObjectMeta s).
Definition Namespace (s : t) : string := ObjectMeta.Namespace (ObjectMeta s).
Definition Labels (s : t) : gmap string string := ObjectMeta.Labels (ObjectMeta s).
Definition ResourceVersion (s : t) : string :=
  ObjectMeta.ResourceVersion (ObjectMeta s).
End StatefulSet.

Module Pod.
Record t := {
  ObjectMeta : ObjectMeta.t
}.
Definition Name (p : t) : string := ObjectMeta.Name (ObjectMeta p).
Definition Namespace (p : t) : string := ObjectMeta.Namespace (ObjectMeta p).
Definition Labels (p : t) : gmap string string := ObjectMeta.Labels (ObjectMeta p).
Definition Annotations (p : t) : gmap string string :=
  ObjectMeta.Annotations (ObjectMeta p).
End Pod.

(** ** The cluster resource ([myspec], pkg/apis/m3dboperator/v1) *)

Module IsolationGroup.
Record t := {
  Name : string;
  NumInstances : Z   (* int32 *)
}.
End IsolationGroup.

Module Namespace.
Record t := {
  Name : string;
  Preset : string
}.
End Namespace.

Module ClusterCondition.
Record t := {
  Type_ : string;
  Status : string
}.
End ClusterCondition.

Module M3DBCluster.
Record t := {
  ObjectMeta : ObjectMeta.t;
  Spec_ReplicationFactor : Z;
  Spec_NumberOfShards : Z;
  Spec_IsolationGroups : list IsolationGroup.t;
  Spec_Namespaces : list Namespace.t;
  Status_Conditions : list ClusterCondition.t
}.
Definition Name (c : t) : string := ObjectMeta.Name (ObjectMeta c).
Definition Namespace (c : t) : string := ObjectMeta.Namespace (ObjectMeta c).
Definition Labels (c : t) : gmap string string := ObjectMeta.Labels (ObjectMeta c).
Definition UID (c : t) : string := ObjectMeta.UID (ObjectMeta c).
End M3DBCluster.

(** ** The DB placement ([m3placement]) *)

Module Instance.
Record t := {
  ID : string;
  IsolationGroup : string;
  IsAvailable : bool
}.
End Instance.

Module Placement.
Record t := {
  Instances : list Instance.t
}.
Definition NumInstances (p : t) : nat := length (Instances p).
End Placement.

(** The identity record of a pod (docs/api.md, PodIdentity). *)
Module PodIdentity.
Record t := {
  Name : string;
  UID : string;
  NodeName : string;
  NodeExternalID : string;
  NodeProviderID : string
}.
End PodIdentity.

(** ** Outgoing calls *)

Inductive Level := Debug | Info | Warn | Error.

(** zap fields *)
Inductive Field :=
| zap_String (key value : string)
| zap_Strings (key : string) (values : list string)
| zap_Int (key : string) (value : Z)
| zap_Int32 (key : string) (value : Z)
| zap_Int64 (key : string) (value : Z)
| zap_Error (e : error)
| zap_Any (key : string) (value : PodIdentity.t).

Inductive Queue := clusterWorkQueue | podWorkQueue.

Inductive Call :=
(* platform writes *)
| ServiceCreate (name : string)
| StatefulSetCreate (namespace : string) (sts : StatefulSet.t)
| StatefulSetUpdate (namespace : string) (sts : StatefulSet.t)
| PodUpdate (namespace : string) (pod : Pod.t)
| ClusterStatusUpdate (cluster : string)
(* DB admin writes *)
| NamespaceCreate (name : string)
| NamespaceDelete (name : string)
| PlacementInit (instances : list string)
| PlacementAdd (instances : list string)
| PlacementRemove (instance : string)
(* reads: informer caches, admin API, identity provider *)
| ClusterGet (namespace name : string)
| StatefulSetList (namespace : string) (selector : gmap string string)
| PodList (namespace : string) (selector : gmap string string)
| PodGet (namespace name : string)
| NamespaceList
| PlacementGet
| Identity (pod : string)
| IdentityJSON
(* event recorder, logger, work queues, metrics, runtime.HandleError *)
| WarningEvent (cluster reason message : string)
| NormalEvent (cluster reason message : string)
| Log (level : Level) (message : string) (fields : list Field)
| AddRateLimited (q : Queue) (key : string)
| Forget (q : Queue) (key : string)
| Done (q : Queue) (key : string)
| CounterInc (name : string)
| HandleError (message : string).

(** ** How a Go function ends *)

Inductive Outcome :=
| Return (err : option error)
| Panic (message : string).

(** Inside a function body: go on with a value, or leave the function. *)
Inductive Flow (A : Type) : Type :=
| Next (a : A)
| Exit (o : Outcome).
Arguments Next {A} a.
Arguments Exit {A} o.

(** A piece of a function body: the calls it issues, then how it goes on. *)
Definition M (A : Type) : Type := list Call * Flow A.

Definition ret {A} (a : A) : M A := ([], Next a).

Definition bind {A B} (m : M A) (f : A -> M B) : M B :=
  match m with
  | (t, Next a) => let '(t', r) := f a in (t ++ t', r)
  | (t, Exit o) => (t, Exit o)
  end.

Definition call (c : Call) : M unit := ([c], Next tt).
Definition exit {A} (o : Outcome) : M A := ([], Exit o).
Definition return_ {A} (err : option error) : M A := exit (Return err).

Notation "'do' x <- m ; k" := (bind m (fun x => k))
  (at level 10, x pattern, m at level 100, k at level 200).
Notation "'do_' m ; k" := (bind m (fun _ => k))
  (at level 10, m at level 100, k at level 200).

(** A function body that ends with [return] on every path. *)
Definition run (m : M Empty_set) : list Call * Outcome :=
  match m with
  | (t, Exit o) => (t, o)
  | (t, Next a) => match a with end
  end.

(** [v, err := f(...); if err != nil { return wrap(err) }] *)
Definition try {A} (r : list Call * result A) (wrap : error -> error) : M A :=
  match r with
  | (t, Ok a) => (t, Next a)
  | (t, Err e) => (t, Exit (Return (Some (wrap e))))
  end.

(** [if err := f(...); err != nil { return wrap(err) }] *)
Definition check (r : list Call * option error) (wrap : error -> error) : M unit :=
  match r with
  | (t, None) => (t, Next tt)
  | (t, Some e) => (t, Exit (Return (Some (wrap e))))
  end.

(** [return f(...)] *)
Definition return_call {A} (r : list Call * option error) : M A :=
  (r.1, Exit (Return r.2)).

(** ** String helpers *)

(** [fmt.Sprintf] with the verbs the controller uses: [%s] is the string,
    [%d] and [%v] of an integer its decimal form. *)
Definition fmt_d (z : Z) : string := pretty z.

Definition sep_by (sep : string) (l : list string) : string :=
  match l with
  | [] => EmptyString
  | x :: r => fold_left (fun acc y => acc +:+ sep +:+ y) r x
  end.

(** ** Library functions of apimachinery and client-go *)

(** [metav1.GetControllerOf]: the first owner reference whose [Controller]
    pointer is set and true. *)
Definition GetControllerOf (o : ObjectMeta.t) : option OwnerReference.t :=
  List.find (fun ref => match OwnerReference.Controller ref with
                        | Some true => true
                        | _ => false
                        end)
            (ObjectMeta.OwnerReferences o).

(** [metav1.IsControlledBy(obj, owner)]: the controller reference of [obj]
    carries the UID of [owner]. *)
Definition IsControlledBy (o : ObjectMeta.t) (owner : ObjectMeta.t) : bool :=
  match GetControllerOf o with
  | Some ref => String.eqb (OwnerReference.UID ref) (ObjectMeta.UID owner)
  | None => false
  end.

(** The character classes of [k8s.io/apimachinery/pkg/util/validation]:
    alphanumeric, alphanumeric with dash, underscore and dot, and the
    lower-case ones of DNS labels. *)
Definition is_digit (c : ascii) : bool :=
  let n := nat_of_ascii c in (48 <=? n)%nat && (n <=? 57)%nat.
Definition is_lower (c : ascii) : bool :=
  let n := nat_of_ascii c in (97 <=? n)%nat && (n <=? 122)%nat.
Definition is_upper (c : ascii) : bool :=
  let n := nat_of_ascii c in (65 <=? n)%nat && (n <=? 90)%nat.
Definition qnameChar (c : ascii) : bool := is_upper c || is_lower c || is_digit c.
Definition qnameExtChar (c : ascii) : bool :=
  qnameChar c || Ascii.eqb c "-"%char || Ascii.eqb c "_"%char || Ascii.eqb c "."%char.
Definition dns1123Char (c : ascii) : bool := is_lower c || is_digit c.
Definition dns1123ExtChar (c : ascii) : bool := dns1123Char c || Ascii.eqb c "-"%char.

Fixpoint all_chars (p : ascii -> bool) (s : string) : bool :=
  match s with
  | EmptyString => true
  | String c r => p c && all_chars p r
  end.

Fixpoint last_char (s : string) : option ascii :=
  match s with
  | EmptyString => None
  | String c EmptyString => Some c
  | String _ r => last_char r
  end.

(** A whole-string match of an optional [edge] character followed by any
    number of [ext] characters, and then one [edge] character: the string is
    not empty, every character is in [ext], the first and the last in
    [edge]. *)
Definition edged (edge ext : ascii -> bool) (s : string) : bool :=
  match s, last_char s with
  | String c _, Some d => edge c && edge d && all_chars ext s
  | _, _ => false
  end.

(** [qualifiedNameRegexp]: alphanumeric characters, dashes, underscores
    and dots, beginning and ending with an alphanumeric character. *)
Definition qualifiedNameFmt (s : string) : bool := edged qnameChar qnameExtChar s.

(** [dns1123LabelFmt]: lower-case alphanumeric characters and dashes,
    beginning and ending with an alphanumeric character. *)
Definition dns1123LabelFmt (s : string) : bool := edged dns1123Char dns1123ExtChar s.

Fixpoint split_on (sep : ascii) (s acc : string) : list string :=
  match s with
  | EmptyString => [String.rev acc]
  | String c r =>
      if Ascii.eqb c sep
      then String.rev acc :: split_on sep r EmptyString
      else split_on sep r (String c acc)
  end.

(** [validation.IsDNS1123Subdomain]: at most 253 bytes, labels joined by
    dots. *)
Definition IsDNS1123Subdomain (s : string) : bool :=
  (String.length s <=? 253)%nat
  && forallb dns1123LabelFmt (split_on "."%char s EmptyString).

(** [validation.IsQualifiedName]: a name of at most 63 bytes, with an
    optional DNS subdomain prefix and a slash before it. *)
Definition IsQualifiedName (value : string) : bool :=
  let valid_name name :=
    negb (String.eqb name EmptyString)
    && (String.length name <=? 63)%nat
    && qualifiedNameFmt name in
  match split_on "/"%char value EmptyString with
  | [name] => valid_name name
  | [prefix; name] =>
      negb (String.eqb prefix EmptyString) && IsDNS1123Subdomain prefix
      && valid_name name
  | _ => false
  end.

(** [validation.IsValidLabelValue]: at most 63 bytes, empty or of the form
    of a qualified name's name part. *)
Definition IsValidLabelValue (value : string) : bool :=
  (String.length value <=? 63)%nat
  && (String.eqb value EmptyString || qualifiedNameFmt value).

(** [klabels.Set(ls).AsSelector()]: one equality requirement per pair; the
    empty selector, which matches everything, for the empty set and as soon
    as the key or the value of one pair is not valid
    ([klabels.NewRequirement] fails). *)
Definition AsSelector (ls : gmap string string) : list (string * string) :=
  if forallb (fun kv => IsQualifiedName kv.1 && IsValidLabelValue kv.2)
       (map_to_list ls)
  then map_to_list ls
  else [].

(** [klabels.Set(sel).AsSelector().Matches(labels)]: every requirement of
    the selector is met by the labels. *)
Definition selector_matches (sel labels : gmap string string) : bool :=
  forallb (fun kv => bool_decide (labels !! kv.1 = Some kv.2)) (AsSelector sel).

(** [cache.ListAllByNamespace]: the empty namespace ([metav1.NamespaceAll])
    lists the objects of every namespace. *)
Definition in_namespace (namespace objNamespace : string) : bool :=
  String.eqb namespace EmptyString || String.eqb objNamespace namespace.

(** [cache.MetaNamespaceKeyFunc] on an object with metadata:
    [namespace/name], or [name] alone when the namespace is empty. *)
Definition MetaNamespaceKey (o : ObjectMeta.t) : string :=
  if String.eqb (ObjectMeta.Namespace o) EmptyString
  then ObjectMeta.Name o
  else ObjectMeta.Namespace o +:+ "/" +:+ ObjectMeta.Name o.

Fixpoint split_slash (s acc : string) : list string :=
  match s with
  | EmptyString => [String.rev acc]
  | String c r =>
      if Ascii.eqb c "/"%char
      then String.rev acc :: split_slash r EmptyString
      else split_slash r (String c acc)
  end.

(** [strconv.Quote], the verb [%q] of [fmt]: the string in double quotes,
    with Go's escapes for the quote, the backslash and the control
    characters (the delete character as Go prints it since 1.16).  Bytes
    from 128 on are kept as they are, which is what Go does for the UTF-8
    encoding of printable characters. *)
Definition hex_digit (n : nat) : ascii :=
  match String.get n "0123456789abcdef" with
  | Some c => c
  | None => "0"%char
  end.

Definition double_quote : ascii := ascii_of_nat 34.

Definition quote_char (c : ascii) : string :=
  let n := nat_of_ascii c in
  if Ascii.eqb c double_quote then String "\"%char (String c EmptyString)
  else if Ascii.eqb c "\"%char then String c (String c EmptyString)
  else if (n =? 7)%nat then "\a"
  else if (n =? 8)%nat then "\b"
  else if (n =? 12)%nat then "\f"
  else if (n =? 10)%nat then "\n"
  else if (n =? 13)%nat then "\r"
  else if (n =? 9)%nat then "\t"
  else if (n =? 11)%nat then "\v"
  else if (n <? 32)%nat || (n =? 127)%nat
       then "\x" +:+ String (hex_digit (n / 16)) (String (hex_digit (n mod 16)) EmptyString)
  else String c EmptyString.

Fixpoint quote_chars (s : string) : string :=
  match s with
  | EmptyString => EmptyString
  | String c r => quote_char c +:+ quote_chars r
  end.

Definition strconv_Quote (s : string) : string :=
  String double_quote (quote_chars s +:+ String double_quote EmptyString).

(** [cache.SplitMetaNamespaceKey]: one part is a name without namespace, two
    parts are namespace and name, anything else is an error. *)
Definition SplitMetaNamespaceKey (key : string) : result (string * string) :=
  match split_slash key EmptyString with
  | [name] => Ok (EmptyString, name)
  | [namespace; name] => Ok (namespace, name)
  | _ => Err ("unexpected key format: " +:+ strconv_Quote key)
  end.

(** ** The environment of one handler invocation *)

(** What a lister [Get] hands back: a pointer (possibly nil) with a nil
    error, a not-found error ([kerrors.IsNotFound]), or another error. *)
Inductive Got (A : Type) : Type :=
| GotObject (a : A)
| GotNil
| GotNotFound (e : error)
| GotError (e : error).
Arguments GotObject {A} a.
Arguments GotNil {A}.
Arguments GotNotFound {A} e.
Arguments GotError {A} e.

(** The constants of the packages that are not part of the controller
    package ([labels], [podidentity]), and the answer of the outside world to
    every call.  A tick lists the stateful sets twice and fetches the
    placement twice; the cache and the DB may move in between, so these
    reads are answered per occurrence (0 for the first, 1 for the second). *)
Record Env := {
  labels_Cluster : string;
  labels_IsolationGroup : string;
  labels_BaseLabels : M3DBCluster.t -> gmap string string;
  AnnotationKeyPodIdentity : string;
  (* informer caches *)
  clusterGet : string -> string -> Got M3DBCluster.t;
  podGet : string -> string -> Got Pod.t;
  statefulSetCache : nat -> list StatefulSet.t;
  statefulSetListErr : nat -> option error;
  podCache : list Pod.t;
  podListErr : option error;
  (* platform writes *)
  absentServices : M3DBCluster.t -> list string;
  serviceCreate : string -> option error;
  statefulSetCreate : StatefulSet.t -> option error;
  (* the typed client allocates its result before the request, so Update
     hands back an object, whatever its content, also with an error *)
  statefulSetUpdate : StatefulSet.t -> StatefulSet.t * option error;
  podUpdate : Pod.t -> option error;
  clusterStatusUpdate : M3DBCluster.t -> option error;
  (* DB admin API *)
  placementGet : nat -> result Placement.t;
  placementInit : list string -> option error;
  placementAdd : list string -> option error;
  placementRemove : string -> option error;
  namespaceList : result (list string);
  namespaceCreate : string -> option error;
  namespaceDelete : string -> option error;
  (* pod identity provider, pod ordinals, bootstrap markers *)
  podIdentity : Pod.t -> option M3DBCluster.t -> result PodIdentity.t;
  identityJSON : PodIdentity.t -> result string;
  podOrdinal : Pod.t -> Z;
  bootstrapMarkers : M3DBCluster.t -> list string
}.

(** [lister.StatefulSets(namespace).List(selector)] *)
Definition statefulSetLister_List (e : Env) (read : nat)
    (namespace : string) (selector : gmap string string)
    : result (list StatefulSet.t) :=
  match statefulSetListErr e read with
  | Some err => Err err
  | None =>
      Ok (List.filter
            (fun sts => in_namespace namespace (StatefulSet.Namespace sts)
                        && selector_matches selector (StatefulSet.Labels sts))
            (statefulSetCache e read))
  end.

(** [lister.Pods(namespace).List(selector)] *)
Definition podLister_List (e : Env)
    (namespace : string) (selector : gmap string string)
    : result (list Pod.t) :=
  match podListErr e with
  | Some err => Err err
  | None =>
      Ok (List.filter
            (fun pod => in_namespace namespace (Pod.Namespace pod)
                        && selector_matches selector (Pod.Labels pod))
            (podCache e))
  end.

(** ** Package variables (controller.go, lines 61-77) *)

Definition ErrIsolationGroupsMissing : error := "no isolation groups  specified".
Definition ErrInvalidReplicationFactor : error := "invalid replication factor".
Definition errOrphanedPod : error := "pod does not belong to an m3db cluster".

(** Modelled from the spec: the reasons of package [eventer] are not under
    src/; each is taken to spell as its identifier does without the [Reason]
    prefix, the way the spec writes [FailedToUpdate], [IsolationGroupsMissing]
    and [InvalidReplicationFactor] (sections 6 and 7). *)
Definition ReasonUnknown : string := "Unknown".
Definition ReasonFailedToUpdate : string := "FailedToUpdate".
Definition ReasonLongerThanUsual : string := "LongerThanUsual".
Definition ReasonSuccessfulUpdate : string := "SuccessfulUpdate".
Definition ReasonIsolationGroupsMissing : string := "IsolationGroupsMissing".
Definition ReasonInvalidReplicationFactor : string := "InvalidReplicationFactor".

(** ** [myspec.IsolationGroups] *)

(** The order of [Less]: by name. *)
Definition name_le (g h : IsolationGroup.t) : Prop :=
  String.leb (IsolationGroup.Name g) (IsolationGroup.Name h) = true.

Fixpoint insert_group (g : IsolationGroup.t) (l : list IsolationGroup.t)
    : list IsolationGroup.t :=
  match l with
  | [] => [g]
  | h :: t =>
      if String.leb (IsolationGroup.Name g) (IsolationGroup.Name h)
      then g :: h :: t
      else h :: insert_group g t
  end.

(** Modelled from the spec: the [sort.Interface] of [myspec.IsolationGroups]
    is declared outside src/; the spec sorts the isolation groups by name
    (section 4.2, step 4).  [sort.Sort] is not stable, so the order of two
    groups of one name is not fixed by the source; this model keeps them in
    the order of the cluster spec.  Names are compared byte by byte, as Go
    compares strings. *)
Definition sortIsolationGroups (l : list IsolationGroup.t) : list IsolationGroup.t :=
  foldr insert_group [] l.

(** Modelled from the spec: [IsolationGroups.GetByName] is declared outside
    src/; it is the group of that name (the first one), if any. *)
Definition GetByName (l : list IsolationGroup.t) (name : string)
    : option IsolationGroup.t :=
  List.find (fun g => String.eqb (IsolationGroup.Name g) name) l.

(** Modelled from the spec: [M3DBStatus.HasInitializedPlacement] is declared
    outside src/; the spec's state machine takes the placement branch when
    the condition [PlacementInitialized] is not [True] (section 4.2, step 9). *)
Definition HasInitializedPlacement (c : M3DBCluster.t) : bool :=
  existsb (fun cond =>
             String.eqb (ClusterCondition.Type_ cond) "PlacementInitialized"
             && String.eqb (ClusterCondition.Status cond) "True")
          (M3DBCluster.Status_Conditions c).

(** ** Helpers of the repository that are not under src/ *)

(** A loop that issues one write per name and stops at the first error. *)
Fixpoint forEachWrite (mk : string -> Call) (answer : string -> option error)
    (names : list string) : list Call * option error :=
  match names with
  | [] => ([], None)
  | n :: rest =>
      match answer n with
      | Some err => ([mk n], Some err)
      | None => let '(t, r) := forEachWrite mk answer rest in (mk n :: t, r)
      end
  end.

(** Modelled from the spec: [ensureServices] is not under src/.  Section
    4.2, step 2: ensure the required headless and coordinator services
    exist; create if absent; return on error, continue on success. *)
Definition ensureServices (e : Env) (cluster : M3DBCluster.t)
    : list Call * option error :=
  forEachWrite ServiceCreate (serviceCreate e) (absentServices e cluster).

(** The name ["<cluster>-<index>"] (line 374). *)
Definition StatefulSetName (clusterName : string) (index : nat) : string :=
  clusterName +:+ "-" +:+ fmt_d (Z.of_nat index).

(** The index of the first group of a name. *)
Fixpoint index_of (name : string) (l : list IsolationGroup.t) : option nat :=
  match l with
  | [] => None
  | g :: r =>
      if String.eqb (IsolationGroup.Name g) name then Some 0%nat
      else S <$> index_of name r
  end.

(** Modelled from the spec: [k8sops.GenerateStatefulSet] is not under src/.
    Section 3 and section 4.2, step 7: the group is named
    ["<cluster>-<index>"], the index being the place of its isolation group
    in the list sorted by name; it is owned by the cluster through a
    controller owner reference (of kind ["m3dbcluster"], the kind
    [handleStatefulSetUpdate] looks for), labeled with its isolation group,
    and declares [instanceAmount] replicas, none of them ready yet. *)
Definition GenerateStatefulSet (e : Env) (cluster : M3DBCluster.t)
    (isolationGroupName : string) (instanceAmount : Z) : result StatefulSet.t :=
  match index_of isolationGroupName
          (sortIsolationGroups (M3DBCluster.Spec_IsolationGroups cluster)) with
  | None => Err ("could not find isolation group " +:+ isolationGroupName)
  | Some index =>
      Ok {| StatefulSet.ObjectMeta :=
              {| ObjectMeta.Name := StatefulSetName (M3DBCluster.Name cluster) index;
                 ObjectMeta.Namespace := M3DBCluster.Namespace cluster;
                 ObjectMeta.UID := EmptyString;
                 ObjectMeta.ResourceVersion := EmptyString;
                 ObjectMeta.Generation := 0;
                 ObjectMeta.Labels :=
                   <[labels_IsolationGroup e := isolationGroupName]>
                     (labels_BaseLabels e cluster);
                 ObjectMeta.Annotations := ∅;
                 ObjectMeta.OwnerReferences :=
                   [ {| OwnerReference.Kind := "m3dbcluster";
                        OwnerReference.Name := M3DBCluster.Name cluster;
                        OwnerReference.UID := M3DBCluster.UID cluster;
                        OwnerReference.Controller := Some true |} ] |};
            StatefulSet.Spec_Replicas := Some instanceAmount;
            StatefulSet.Status_ReadyReplicas := 0 |}
  end.

Definition notin (l : list string) (s : string) : bool :=
  negb (existsb (String.eqb s) l).

(** Modelled from the spec: [reconcileNamespaces] is not under src/.
    Section 4.2, step 8 and section 4.5: diff the declared against the live
    namespaces through the admin client; create the missing, delete the
    extra. *)
Definition reconcileNamespaces (e : Env) (cluster : M3DBCluster.t)
    : list Call * option error :=
  match namespaceList e with
  | Err err => ([NamespaceList], Some err)
  | Ok live =>
      let declared := map Namespace.Name (M3DBCluster.Spec_Namespaces cluster) in
      match forEachWrite NamespaceCreate (namespaceCreate e)
              (List.filter (notin live) declared) with
      | (t, Some err) => (NamespaceList :: t, Some err)
      | (t, None) =>
          let '(t', r) := forEachWrite NamespaceDelete (namespaceDelete e)
                            (List.filter (notin declared) live) in
          (NamespaceList :: t ++ t', r)
      end
  end.

(** Modelled from the spec: [validatePlacementWithStatus] is not under src/.
    Section 4.2, step 9 and section 6: validate the spec (the replication
    factor equals the number of isolation groups, the number of shards is
    positive; a validation error is surfaced as a warning event), then POST
    an init request deriving the instances from the current pods (instance id
    = pod name) and set the condition.  The boolean result says that the
    cluster status was updated. *)
Definition validatePlacementWithStatus (e : Env) (cluster : M3DBCluster.t)
    : list Call * (bool * option error) :=
  if negb (M3DBCluster.Spec_ReplicationFactor cluster
           =? int32 (Z.of_nat (length (M3DBCluster.Spec_IsolationGroups cluster))))%Z
  then ([WarningEvent (M3DBCluster.Name cluster) ReasonInvalidReplicationFactor
           ErrInvalidReplicationFactor],
        (false, Some ErrInvalidReplicationFactor))
  else if (M3DBCluster.Spec_NumberOfShards cluster <=? 0)%Z
  then ([], (false, Some "invalid number of shards"))
  else
    let namespace := M3DBCluster.Namespace cluster in
    let selector := labels_BaseLabels e cluster in
    match podLister_List e namespace selector with
    | Err err => ([PodList namespace selector], (false, Some err))
    | Ok pods =>
        let ids := map Pod.Name pods in
        match placementInit e ids with
        | Some err =>
            ([PodList namespace selector; PlacementInit ids], (false, Some err))
        | None =>
            match clusterStatusUpdate e cluster with
            | Some err =>
                ([PodList namespace selector; PlacementInit ids;
                  ClusterStatusUpdate (M3DBCluster.Name cluster)],
                 (false, Some err))
            | None =>
                ([PodList namespace selector; PlacementInit ids;
                  ClusterStatusUpdate (M3DBCluster.Name cluster)],
                 (true, None))
            end
        end
    end.

Definition instanceIDs (pl : Placement.t) : list string :=
  map Instance.ID (Placement.Instances pl).

(** Modelled from the spec: [expandPlacementForSet] is not under src/.
    Section 4.2, step 11 and section 4.3: add the pods of the group that
    the placement lacks, in one admin request (instance id = pod name, the
    isolation group is the pod's isolation-group label). *)
Definition expandPlacementForSet (e : Env) (cluster : M3DBCluster.t)
    (set : StatefulSet.t) (group : IsolationGroup.t) (pl : Placement.t)
    : list Call * option error :=
  let namespace := M3DBCluster.Namespace cluster in
  let selector := <[labels_IsolationGroup e := IsolationGroup.Name group]>
                    (labels_BaseLabels e cluster) in
  match podLister_List e namespace selector with
  | Err err => ([PodList namespace selector], Some err)
  | Ok pods =>
      let ids := List.filter (notin (instanceIDs pl)) (map Pod.Name pods) in
      ([PodList namespace selector; PlacementAdd ids], placementAdd e ids)
  end.

(** The pod of the highest ordinal, the later one among equals. *)
Definition highestOrdinal (e : Env) (pods : list Pod.t) : option Pod.t :=
  fold_left (fun best pod =>
               match best with
               | None => Some pod
               | Some b => if (podOrdinal e b <=? podOrdinal e pod)%Z
                           then Some pod else Some b
               end) pods None.

(** Modelled from the spec: [shrinkPlacementForSet] is not under src/.
    Section 4.2, step 11 and section 4.3: remove one instance, the pod of
    the highest ordinal in the group of the set, in one admin request. *)
Definition shrinkPlacementForSet (e : Env) (cluster : M3DBCluster.t)
    (set : StatefulSet.t) : list Call * option error :=
  let namespace := M3DBCluster.Namespace cluster in
  let selector := StatefulSet.Labels set in
  match podLister_List e namespace selector with
  | Err err => ([PodList namespace selector], Some err)
  | Ok pods =>
      match highestOrdinal e pods with
      | None => ([PodList namespace selector],
                 Some ("no pods found for set " +:+ StatefulSet.Name set))
      | Some pod =>
          ([PodList namespace selector; PlacementRemove (Pod.Name pod)],
           placementRemove e (Pod.Name pod))
      end
  end.

(** Modelled from the spec: [reconcileBootstrappingStatus] is not under
    src/.  Section 4.2, step 12: clear the bootstrap markers of the pods
    whose placement entry is available by now; the cluster status is
    written when there is a marker to clear. *)
Definition reconcileBootstrappingStatus (e : Env) (cluster : M3DBCluster.t)
    (pl : Placement.t) : list Call * result M3DBCluster.t :=
  let available :=
    map Instance.ID (List.filter Instance.IsAvailable (Placement.Instances pl)) in
  match List.filter (fun pod => existsb (String.eqb pod) available)
          (bootstrapMarkers e cluster) with
  | [] => ([], Ok cluster)
  | _ :: _ =>
      match clusterStatusUpdate e cluster with
      | Some err => ([ClusterStatusUpdate (M3DBCluster.Name cluster)], Err err)
      | None => ([ClusterStatusUpdate (M3DBCluster.Name cluster)], Ok cluster)
      end
  end.

(** ** The cluster handler (controller.go) *)

(** [instancesInIsoGroup], lines 539-547 *)
Definition instancesInIsoGroup (pl : Placement.t) (isoGroup : string)
    : list Instance.t :=
  List.filter (fun inst => String.eqb (Instance.IsolationGroup inst) isoGroup)
    (Placement.Instances pl).

(** The [inPlacement] of the spec, section 4.2: the number of instances of
    the placement that are in the isolation group.  It is written from the
    spec's words, to be compared with what the code computes through
    [instancesInIsoGroup]. *)
Fixpoint spec_inPlacement (isoGroup : string) (instances : list Instance.t) : nat :=
  match instances with
  | [] => 0
  | inst :: rest =>
      if decide (Instance.IsolationGroup inst = isoGroup)
      then S (spec_inPlacement isoGroup rest)
      else spec_inPlacement isoGroup rest
  end.

(** [getChildStatefulSets], lines 551-566; [read] tells the first listing of
    a tick from the second. *)
Definition getChildStatefulSets (e : Env) (read : nat) (cluster : M3DBCluster.t)
    : list Call * result (list StatefulSet.t) :=
  let namespace := M3DBCluster.Namespace cluster in
  let selector := M3DBCluster.Labels cluster in
  match statefulSetLister_List e read namespace selector with
  | Err err =>
      ([StatefulSetList namespace selector;
        HandleError ("error listing statefulsets: " +:+ err)], Err err)
  | Ok statefulSets =>
      ([StatefulSetList namespace selector],
       Ok (List.filter
             (fun sts => IsControlledBy (StatefulSet.ObjectMeta sts)
                           (M3DBCluster.ObjectMeta cluster))
             statefulSets))
  end.

(** [%v] of an isolation group and of a slice of them *)
Definition fmt_v_group (g : IsolationGroup.t) : string :=
  "{" +:+ IsolationGroup.Name g +:+ " " +:+ fmt_d (IsolationGroup.NumInstances g) +:+ "}".
Definition fmt_v_groups (l : list IsolationGroup.t) : string :=
  "[" +:+ sep_by " " (map fmt_v_group l) +:+ "]".

(** [%d] of a slice of strings *)
Definition fmt_d_strings (l : list string) : string :=
  "[" +:+ sep_by " " (map (fun s => "%!d(string=" +:+ s +:+ ")") l) +:+ "]".

(** Lines 334-356: deep copy, services, the guard on an empty list of
    isolation groups, the sorted copy of the groups, the child sets. *)
Definition listChildren (e : Env) (cluster : M3DBCluster.t)
    : M (list IsolationGroup.t * list StatefulSet.t) :=
  do_ check (ensureServices e cluster) id;
  if Nat.eqb (length (M3DBCluster.Spec_IsolationGroups cluster)) 0
  then return_ None
  else
    let isoGroups := sortIsolationGroups (M3DBCluster.Spec_IsolationGroups cluster) in
    do childrenSets <- try (getChildStatefulSets e 0 cluster) id;
    ret (isoGroups, childrenSets).

(** Lines 358-366: wait while a set is not ready. *)
Fixpoint readinessGate (childrenSets : list StatefulSet.t) : M unit :=
  match childrenSets with
  | [] => ret tt
  | sts :: rest =>
      match StatefulSet.Spec_Replicas sts with
      | Some replicas =>
          if negb (replicas =? StatefulSet.Status_ReadyReplicas sts)%Z
          then
            do_ call (Log Info "waiting for statefulset to be ready"
                        [zap_String "name" (StatefulSet.Name sts);
                         zap_Int32 "ready" (StatefulSet.Status_ReadyReplicas sts)]);
            return_ None
          else readinessGate rest
      | None => readinessGate rest
      end
  end.

(** Lines 370-388: create the next stateful set. *)
Definition createStatefulSet (e : Env) (cluster : M3DBCluster.t)
    (isoGroups : list IsolationGroup.t) (childrenSets : list StatefulSet.t)
    : M unit :=
  if negb (Nat.eqb (length childrenSets) (length isoGroups))
  then
    let nextID := length childrenSets in
    let name := M3DBCluster.Name cluster +:+ "-" +:+ fmt_d (Z.of_nat nextID) in
    match isoGroups !! nextID with
    | None => exit (Panic "runtime error: index out of range")
    | Some group =>
        match GenerateStatefulSet e cluster (IsolationGroup.Name group)
                (IsolationGroup.NumInstances group) with
        | Err err => return_ (Some err)
        | Ok sts =>
            do_ call (StatefulSetCreate (M3DBCluster.Namespace cluster) sts);
            match statefulSetCreate e sts with
            | Some err =>
                do_ call (Log Error err []);
                return_ (Some err)
            | None =>
                do_ call (Log Info "created statefulset" [zap_String "name" name]);
                return_ None
            end
        end
    end
  else ret tt.

(** Lines 390-449: namespaces, placement initialisation, the pods, the live
    placement, the gate on unavailable instances, the child sets again. *)
Definition fetchPlacement (e : Env) (cluster : M3DBCluster.t)
    : M (Placement.t * list StatefulSet.t) :=
  do_ (match reconcileNamespaces e cluster with
       | (t, Some err) =>
           do_ (t, Next tt);
           do_ call (Log Error "error reconciling namespaces" [zap_Error err]);
           return_ (Some err)
       | (t, None) => (t, Next tt)
       end);
  do_ (if Nat.eqb (length (M3DBCluster.Spec_Namespaces cluster)) 0
       then
         do_ call (Log Warn "cluster has no namespaces defined"
                     [zap_String "cluster" (M3DBCluster.Name cluster)]);
         call (WarningEvent (M3DBCluster.Name cluster) ReasonUnknown
                 ("cluster " +:+ M3DBCluster.Name cluster +:+ " has no namespaces"))
       else ret tt);
  do_ (if negb (HasInitializedPlacement cluster)
       then
         let '(t, (updated, err)) := validatePlacementWithStatus e cluster in
         do_ (t, Next tt);
         match err with
         | Some err => return_ (Some err)
         | None =>
             if updated
             then
               let err := "re-enqueing cluster due to API update" in
               do_ call (WarningEvent (M3DBCluster.Name cluster)
                           ReasonFailedToUpdate err);
               return_ (Some err)
             else ret tt
         end
       else ret tt);
  let selector := labels_BaseLabels e cluster in
  do pods <- try ([PodList (M3DBCluster.Namespace cluster) selector],
                  podLister_List e (M3DBCluster.Namespace cluster) selector)
               (fun err => "error listing pods: " +:+ err);
  do placement <- try ([PlacementGet], placementGet e 0)
                    (fun err => "error fetching active placement: " +:+ err);
  do_ call (Log Info "found placement"
              [zap_Int "currentPods" (Z.of_nat (length pods));
               zap_Int "placementInsts" (Z.of_nat (Placement.NumInstances placement))]);
  let unavailInsts :=
    map Instance.ID
      (List.filter (fun inst => negb (Instance.IsAvailable inst))
         (Placement.Instances placement)) in
  if (0 <? length unavailInsts)%nat
  then
    do_ call (Log Warn "waiting for instances to be available"
                [zap_Strings "instances" unavailInsts]);
    do_ call (WarningEvent (M3DBCluster.Name cluster) ReasonLongerThanUsual
                ("current unavailable instances: " +:+ fmt_d_strings unavailInsts));
    return_ None
  else
    do childrenSets <- try (getChildStatefulSets e 1 cluster) id;
    ret (placement, childrenSets).

(** The fields of [setLogger], lines 470-475 *)
Definition setLogger (set : StatefulSet.t) (inPlacement current desired : Z)
    : list Field :=
  [zap_String "statefulSet" (StatefulSet.Name set);
   zap_Int32 "inPlacement" inPlacement;
   zap_Int32 "current" current;
   zap_Int32 "desired" desired].

(** Lines 462-513: the decision for one set, once its group is known.
    [None] is the [continue] of the loop. *)
Definition scaleSet (e : Env) (cluster : M3DBCluster.t)
    (placement : Placement.t) (set : StatefulSet.t) (group : IsolationGroup.t)
    : M unit :=
  match StatefulSet.Spec_Replicas set with
  | None =>
      return_ (Some ("set " +:+ StatefulSet.Name set +:+ " has unset spec replica"))
  | Some current =>
      let desired := IsolationGroup.NumInstances group in
      let inPlacement :=
        int32 (Z.of_nat (length (instancesInIsoGroup placement
                                   (IsolationGroup.Name group)))) in
      let fields := setLogger set inPlacement current desired in
      if (desired =? current)%Z && (current =? inPlacement)%Z
      then ret tt
      else if (desired =? current)%Z && (inPlacement <? current)%Z
      then
        do_ call (Log Info "expanding placement for set" fields);
        return_call (expandPlacementForSet e cluster set group placement)
      else if (desired <? inPlacement)%Z
      then
        do_ call (Log Info "remove instance from placement for set" fields);
        return_call (shrinkPlacementForSet e cluster set)
      else
        let newCount :=
          if (current <? desired)%Z then int32 (current + 1) else int32 (current - 1) in
        do_ call (Log Info "resizing set, desired != current"
                    (fields ++ [zap_Int32 "newSize" newCount]));
        let set' := {| StatefulSet.ObjectMeta := StatefulSet.ObjectMeta set;
                       StatefulSet.Spec_Replicas := Some newCount;
                       StatefulSet.Status_ReadyReplicas :=
                         StatefulSet.Status_ReadyReplicas set |} in
        do_ call (StatefulSetUpdate (StatefulSet.Namespace set') set');
        match statefulSetUpdate e set' with
        | (updated, Some err) =>
            return_ (Some ("error updating statefulset " +:+ StatefulSet.Name updated
                           +:+ ": " +:+ err))
        | (_, None) => return_ None
        end
  end.

(** Lines 451-514: the loop over the child sets. *)
Fixpoint scaleSets (e : Env) (cluster : M3DBCluster.t)
    (isoGroups : list IsolationGroup.t) (placement : Placement.t)
    (childrenSets : list StatefulSet.t) : M unit :=
  match childrenSets with
  | [] => ret tt
  | set :: rest =>
      match StatefulSet.Labels set !! labels_IsolationGroup e with
      | None =>
          return_ (Some ("statefulset " +:+ StatefulSet.Name set
                         +:+ " has no isolation-group label"))
      | Some zone =>
          match GetByName isoGroups zone with
          | None =>
              return_ (Some ("zone " +:+ zone +:+ " not found in cluster isoGroups "
                             +:+ fmt_v_groups isoGroups))
          | Some group =>
              do_ scaleSet e cluster placement set group;
              scaleSets e cluster isoGroups placement rest
          end
      end
  end.

(** Lines 516-536: nothing left to do for the sets. *)
Definition finishUpdate (e : Env) (cluster : M3DBCluster.t)
    (isoGroups : list IsolationGroup.t) (childrenSets : list StatefulSet.t)
    : M Empty_set :=
  do placement <- try ([PlacementGet], placementGet e 1)
                    (fun err => "error fetching placement: " +:+ err);
  do cluster <- try (reconcileBootstrappingStatus e cluster placement)
                  (fun err => "error reconciling bootstrap status: " +:+ err);
  do_ call (Log Info "nothing to do"
              [zap_Int "childrensets" (Z.of_nat (length childrenSets));
               zap_Int "zones" (Z.of_nat (length isoGroups));
               zap_Int64 "generation"
                 (ObjectMeta.Generation (M3DBCluster.ObjectMeta cluster));
               zap_String "rv"
                 (ObjectMeta.ResourceVersion (M3DBCluster.ObjectMeta cluster))]);
  do_ call (NormalEvent (M3DBCluster.Name cluster) ReasonSuccessfulUpdate
              "cluster updated and synced");
  return_ None.

(** [handleClusterUpdate], lines 330-537 *)
Definition handleClusterUpdate_body (e : Env) (cluster : M3DBCluster.t)
    : M Empty_set :=
  do (isoGroups, childrenSets) <- listChildren e cluster;
  do_ readinessGate childrenSets;
  do_ createStatefulSet e cluster isoGroups childrenSets;
  do (placement, childrenSets) <- fetchPlacement e cluster;
  do_ scaleSets e cluster isoGroups placement childrenSets;
  finishUpdate e cluster isoGroups childrenSets.

Definition handleClusterUpdate (e : Env) (cluster : M3DBCluster.t)
    : list Call * Outcome :=
  run (handleClusterUpdate_body e cluster).

(** [handleClusterEvent], lines 303-326: one reconcile tick on a cluster key *)
Definition handleClusterEvent (e : Env) (key : string) : list Call * Outcome :=
  match SplitMetaNamespaceKey key with
  | Err _ => ([HandleError ("invalid resource key: " +:+ key)], Return None)
  | Ok (namespace, name) =>
      match clusterGet e namespace name with
      | GotNotFound _ =>
          ([ClusterGet namespace name;
            HandleError ("clusters '" +:+ key +:+ "' no longer exists")],
           Return None)
      | GotError err => ([ClusterGet namespace name], Return (Some err))
      | GotNil =>
          ([ClusterGet namespace name], Return (Some ("got nil cluster for " +:+ key)))
      | GotObject cluster =>
          let '(t, o) := handleClusterUpdate e cluster in
          (ClusterGet namespace name :: t, o)
      end
  end.

(** What a work queue hands to a worker. *)
Inductive QueueItem :=
| QShutdown
| QString (key : string)
| QOther (repr : string).

(** The closure of a [process...QueueItem] with its deferred [Done], and the
    rest of the function; [None] is a panic that leaves the worker. *)
Definition processQueueItem (q : Queue) (level : Level)
    (handle : string -> list Call * Outcome) (item : QueueItem)
    : list Call * option bool :=
  match item with
  | QShutdown => ([CounterInc "dequeued_event"], Some false)
  | QOther repr =>
      ([CounterInc "dequeued_event"; Forget q repr;
        HandleError ("expected string from queue, got " +:+ repr); Done q repr],
       Some true)
  | QString key =>
      match handle key with
      | (t, Return (Some err)) =>
          (CounterInc "dequeued_event" :: t ++
             [Done q key;
              HandleError ("error syncing cluster '" +:+ key +:+ "': " +:+ err)],
           Some true)
      | (t, Return None) =>
          (CounterInc "dequeued_event" :: t ++
             [Forget q key;
              Log level "successfully synced item" [zap_String "key" key];
              Done q key],
           Some true)
      | (t, Panic _) => (CounterInc "dequeued_event" :: t ++ [Done q key], None)
      end
  end.

(** [processClusterQueueItem], lines 267-301 *)
Definition processClusterQueueItem (e : Env) (item : QueueItem)
    : list Call * option bool :=
  processQueueItem clusterWorkQueue Info (handleClusterEvent e) item.

(** An [interface{}] handed to an informer callback: something with object
    metadata, a tombstone around something that has metadata or has not, or
    anything else. *)
Inductive Object :=
| MetaObject (meta : ObjectMeta.t)
| NilPointer
| DeletedFinalStateUnknown (obj : option ObjectMeta.t)
| OtherObject.

(** The error of [cache.MetaNamespaceKeyFunc] for an object without
    metadata: [meta.Accessor]'s error behind the prefix. *)
Definition errNoMeta : error :=
  "object has no meta: object does not implement the Object interfaces".

(** [enqueueCluster], lines 251-260, and [enqueuePod], lines 605-614 *)
Definition enqueueCluster (obj : Object) : list Call * Outcome :=
  match obj with
  | MetaObject meta =>
      ([AddRateLimited clusterWorkQueue (MetaNamespaceKey meta);
        CounterInc "enqueued_event"], Return None)
  | NilPointer => ([], Panic "invalid memory address or nil pointer dereference")
  | _ => ([HandleError errNoMeta], Return None)
  end.

Definition enqueuePod (obj : Object) : list Call * Outcome :=
  match obj with
  | MetaObject meta =>
      ([AddRateLimited podWorkQueue (MetaNamespaceKey meta);
        CounterInc "enqueued_event"], Return None)
  | NilPointer => ([], Panic "invalid memory address or nil pointer dereference")
  | _ => ([Log Error "error splitting pod cache key" [zap_Error errNoMeta]],
          Return None)
  end.

(** Lines 587-602 of [handleStatefulSetUpdate]: the object is decoded. *)
Definition enqueueOwner (e : Env) (object : ObjectMeta.t) : list Call * Outcome :=
  let processing :=
    Log Info "processing statefulset" [zap_String "name" (ObjectMeta.Name object)] in
  match GetControllerOf object with
  | None => ([processing], Return None)
  | Some owner =>
      if negb (String.eqb (OwnerReference.Kind owner) "m3dbcluster")
      then ([processing], Return None)
      else
        let namespace := ObjectMeta.Namespace object in
        let name := OwnerReference.Name owner in
        match clusterGet e namespace name with
        | GotNotFound _ | GotError _ =>
            ([processing; ClusterGet namespace name;
              Log Info "ignoring orphaned object"
                [zap_String "m3dbcluster" name;
                 zap_String "statefulset" (ObjectMeta.Name object)]],
             Return None)
        | GotNil =>
            let '(t, o) := enqueueCluster NilPointer in
            (processing :: ClusterGet namespace name :: t, o)
        | GotObject cluster =>
            let '(t, o) := enqueueCluster (MetaObject (M3DBCluster.ObjectMeta cluster)) in
            (processing :: ClusterGet namespace name :: t, o)
        end
  end.

(** [handleStatefulSetUpdate], lines 568-603 *)
Definition handleStatefulSetUpdate (e : Env) (obj : Object) : list Call * Outcome :=
  match obj with
  | MetaObject object => enqueueOwner e object
  | NilPointer => ([], Panic "invalid memory address or nil pointer dereference")
  | DeletedFinalStateUnknown (Some object) =>
      let '(t, o) := enqueueOwner e object in
      (Log Info "recovered object from tombstone"
         [zap_String "name" (ObjectMeta.Name object)] :: t, o)
  | DeletedFinalStateUnknown None =>
      ([HandleError "error decoding tombstone, invalid type"], Return None)
  | OtherObject =>
      ([HandleError "error decoding object, invalid type"], Return None)
  end.

(** ** The informer callbacks registered by [New], lines 178-216 *)

Module ClusterInformer.
Definition AddFunc (obj : Object) := enqueueCluster obj.
Definition UpdateFunc (old new : Object) := enqueueCluster new.
Definition DeleteFunc (obj : Object) : list Call * Outcome :=
  ([Log Info "deleted cluster" []], Return None).
End ClusterInformer.

Module StatefulSetInformer.
Definition AddFunc (e : Env) (obj : Object) := handleStatefulSetUpdate e obj.
Definition UpdateFunc (e : Env) (old new : StatefulSet.t) : list Call * Outcome :=
  let oldSts := old in
  let newSts := new in
  if String.eqb (StatefulSet.ResourceVersion newSts)
       (StatefulSet.ResourceVersion oldSts)
  then ([], Return None)
  else handleStatefulSetUpdate e (MetaObject (StatefulSet.ObjectMeta new)).
Definition DeleteFunc (e : Env) (obj : Object) := handleStatefulSetUpdate e obj.
End StatefulSetInformer.

Module PodInformer.
Definition AddFunc (obj : Object) := enqueuePod obj.
Definition UpdateFunc (old new : Object) := enqueuePod new.
Definition DeleteFunc (obj : Object) : list Call * Outcome := ([], Return None).
End PodInformer.

(** ** The pod handler *)

(** [getClusterValue], lines 739-746 *)
Definition getClusterValue (e : Env) (pod : Pod.t) : string * bool :=
  match Pod.Labels pod !! labels_Cluster e with
  | None => (EmptyString, false)
  | Some cluster => (cluster, true)
  end.

(** [getParentCluster], lines 748-760; the cluster pointer may be nil. *)
Definition getParentCluster (e : Env) (pod : Pod.t)
    : list Call * result (option M3DBCluster.t) :=
  match getClusterValue e pod with
  | (_, false) => ([], Err errOrphanedPod)
  | (clusterName, true) =>
      let namespace := Pod.Namespace pod in
      ([ClusterGet namespace clusterName],
       match clusterGet e namespace clusterName with
       | GotObject cluster => Ok (Some cluster)
       | GotNil => Ok None
       | GotNotFound err | GotError err => Err err
       end)
  end.

Definition withAnnotation (pod : Pod.t) (key value : string) : Pod.t :=
  {| Pod.ObjectMeta :=
       let m := Pod.ObjectMeta pod in
       {| ObjectMeta.Name := ObjectMeta.Name m;
          ObjectMeta.Namespace := ObjectMeta.Namespace m;
          ObjectMeta.UID := ObjectMeta.UID m;
          ObjectMeta.ResourceVersion := ObjectMeta.ResourceVersion m;
          ObjectMeta.Generation := ObjectMeta.Generation m;
          ObjectMeta.Labels := ObjectMeta.Labels m;
          ObjectMeta.Annotations := <[key := value]> (ObjectMeta.Annotations m);
          ObjectMeta.OwnerReferences := ObjectMeta.OwnerReferences m |} |}.

(** [handlePodUpdate], lines 681-737.  A nil annotation map and an empty
    one read alike, so the [make] of line 727 leaves the map as it is. *)
Definition handlePodUpdate_body (e : Env) (pod : Pod.t) : M Empty_set :=
  if negb (getClusterValue e pod).2
  then return_ None
  else
    let podLogger := [zap_String "pod" (Pod.Name pod)] in
    do_ call (Log Info "processing pod" podLogger);
    do cluster <-
      match getParentCluster e pod with
      | (t, Err err) =>
          do_ (t, Next tt);
          do_ call (Log Error "error getting parent cluster" (podLogger ++ [zap_Error err]));
          return_ (Some err)
      | (t, Ok cluster) => (t, Next cluster)
      end;
    do_ call (Identity (Pod.Name pod));
    do id <-
      match podIdentity e pod cluster with
      | Err err =>
          do_ call (Log Error "error getting pod ID" (podLogger ++ [zap_Error err]));
          return_ (Some err)
      | Ok id => ret id
      end;
    do_ call IdentityJSON;
    do idStr <-
      match identityJSON e id with
      | Err err =>
          do_ call (Log Error "error marshaling pod ID" (podLogger ++ [zap_Error err]));
          return_ (Some err)
      | Ok idStr => ret idStr
      end;
    do_ call (Log Info "pod ID" (podLogger ++ [zap_Any "id" id]));
    match Pod.Annotations pod !! AnnotationKeyPodIdentity e with
    | Some currentID =>
        do_ (if negb (String.eqb currentID idStr)
             then call (Log Warn "pod ID mismatch"
                          (podLogger ++ [zap_String "currentID" currentID;
                                         zap_String "newID" idStr]))
             else ret tt);
        return_ None
    | None =>
        let pod := withAnnotation pod (AnnotationKeyPodIdentity e) idStr in
        do_ call (PodUpdate (Pod.Namespace pod) pod);
        match podUpdate e pod with
        | Some err =>
            do_ call (Log Error "error updating pod annotation"
                        (podLogger ++ [zap_Error err]));
            return_ (Some err)
        | None => return_ None
        end
    end.

Definition handlePodUpdate (e : Env) (pod : Pod.t) : list Call * Outcome :=
  run (handlePodUpdate_body e pod).

(** [handlePodEvent], lines 657-679 *)
Definition handlePodEvent (e : Env) (key : string) : list Call * Outcome :=
  match SplitMetaNamespaceKey key with
  | Err err => ([Log Error "invalid resource key" [zap_Error err]], Return None)
  | Ok (namespace, name) =>
      match podGet e namespace name with
      | GotNotFound _ =>
          ([PodGet namespace name;
            Log Error "pod no longer exists" [zap_String "pod" name]], Return None)
      | GotError err => ([PodGet namespace name], Return (Some err))
      | GotNil =>
          ([PodGet namespace name], Return (Some ("got nil pod for key " +:+ key)))
      | GotObject pod =>
          let '(t, o) := handlePodUpdate e pod in
          (PodGet namespace name :: t, o)
      end
  end.

(** [processPodQueueItem], lines 621-655 *)
Definition processPodQueueItem (e : Env) (item : QueueItem)
    : list Call * option bool :=
  processQueueItem podWorkQueue Debug (handlePodEvent e) item.

(** ** Reading traces *)

(** The number of calls of a kind in a trace. *)
Fixpoint count (p : Call -> bool) (t : list Call) : nat :=
  match t with
  | [] => 0
  | c :: t => (if p c then 1 else 0) + count p t
  end.

(** Writes of stateful groups: a create or an update of the replica count. *)
Definition isGroupWrite (c : Call) : bool :=
  match c with
  | StatefulSetCreate _ _ | StatefulSetUpdate _ _ => true
  | _ => false
  end.


Definition isPlacementWrite (c : Call) : bool :=
  match c with
  | PlacementInit _ | PlacementAdd _ | PlacementRemove _ => true
  | _ => false
  end.

Definition isNamespaceWrite (c : Call) : bool :=
  match c with
  | NamespaceCreate _ | NamespaceDelete _ => true
  | _ => false
  end.

(** The writes to the DB admin API. *)
Definition isAdminWrite (c : Call) : bool :=
  isPlacementWrite c || isNamespaceWrite c.

(** The writes that change the topology: groups and placement. *)
Definition isTopologyWrite (c : Call) : bool :=
  isGroupWrite c || isPlacementWrite c.

(** Every mutation the state machine is after: groups, placement, namespaces. *)
Definition isMutation (c : Call) : bool :=
  isGroupWrite c || isPlacementWrite c || isNamespaceWrite c.

Definition isPodUpdate (c : Call) : bool :=
  match c with
  | PodUpdate _ _ => true
  | _ => false
  end.

Definition isEnqueue (c : Call) : bool :=
  match c with
  | AddRateLimited _ _ => true
  | _ => false
  end.

Definition isWarningEvent (reason : string) (c : Call) : bool :=
  match c with
  | WarningEvent _ r _ => String.eqb r reason
  | _ => false
  end.

(** A set the readiness gate waits for. *)
Definition unready (sts : StatefulSet.t) : bool :=
  match StatefulSet.Spec_Replicas sts with
  | Some replicas => negb (replicas =? StatefulSet.Status_ReadyReplicas sts)%Z
  | None => false
  end.

(** ** The platform between two invocations *)

(** A pod update that the platform accepted replaces the stored pod. *)
Definition applyPodCall (e : Env) (pod : Pod.t) (c : Call) : Pod.t :=
  match c with
  | PodUpdate _ pod' =>
      match podUpdate e pod' with
      | None => pod'
      | Some _ => pod
      end
  | _ => pod
  end.

(** The stored pod after the pod handler ran on it. *)
Definition podAfter (e : Env) (pod : Pod.t) : Pod.t :=
  fold_left (applyPodCall e) (handlePodUpdate e pod).1 pod.

(** The stored pod after one invocation per environment of the list. *)
Definition podAfterAll (envs : list Env) (pod : Pod.t) : Pod.t :=
  fold_left (fun pod e => podAfter e pod) envs pod.

(** A set that finished bootstrapping: all declared replicas are ready. *)
Definition bootstrapped (sts : StatefulSet.t) : StatefulSet.t :=
  {| StatefulSet.ObjectMeta := StatefulSet.ObjectMeta sts;
     StatefulSet.Spec_Replicas := StatefulSet.Spec_Replicas sts;
     StatefulSet.Status_ReadyReplicas :=
       match StatefulSet.Spec_Replicas sts with
       | Some replicas => replicas
       | None => StatefulSet.Status_ReadyReplicas sts
       end |}.







(** ** Sample objects *)

Module Sample.

Definition meta (name namespace uid rv : string) (labels annotations : gmap string string)
    (owners : list OwnerReference.t) : ObjectMeta.t :=
  {| ObjectMeta.Name := name;
     ObjectMeta.Namespace := namespace;
     ObjectMeta.UID := uid;
     ObjectMeta.ResourceVersion := rv;
     ObjectMeta.Generation := 1;
     ObjectMeta.Labels := labels;
     ObjectMeta.Annotations := annotations;
     ObjectMeta.OwnerReferences := owners |}.

Definition group (name : string) (n : Z) : IsolationGroup.t :=
  {| IsolationGroup.Name := name; IsolationGroup.NumInstances := n |}.

Definition initialized : list ClusterCondition.t :=
  [ {| ClusterCondition.Type_ := "PlacementInitialized";
       ClusterCondition.Status := "True" |} ].

Definition cluster (groups : list IsolationGroup.t) (namespaces : list string)
    (conditions : list ClusterCondition.t) : M3DBCluster.t :=
  {| M3DBCluster.ObjectMeta := meta "m3" "prod" "uid-m3" "7" ∅ ∅ [];
     M3DBCluster.Spec_ReplicationFactor := Z.of_nat (length groups);
     M3DBCluster.Spec_NumberOfShards := 256;
     M3DBCluster.Spec_IsolationGroups := groups;
     M3DBCluster.Spec_Namespaces :=
       map (fun n => {| Namespace.Name := n; Namespace.Preset := "10s:2d" |})
         namespaces;
     M3DBCluster.Status_Conditions := conditions |}.

Definition owner : OwnerReference.t :=
  {| OwnerReference.Kind := "m3dbcluster";
     OwnerReference.Name := "m3";
     OwnerReference.UID := "uid-m3";
     OwnerReference.Controller := Some true |}.

Definition isoKey : string := "operator.m3db.io/isolation-group".
Definition clusterKey : string := "operator.m3db.io/cluster".
Definition identityKey : string := "operator.m3db.io/pod-identity".

Definition sts (name zone : string) (replicas : option Z) (ready : Z)
    : StatefulSet.t :=
  {| StatefulSet.ObjectMeta :=
       meta name "prod" EmptyString "1" {[ isoKey := zone ]} ∅ [owner];
     StatefulSet.Spec_Replicas := replicas;
     StatefulSet.Status_ReadyReplicas := ready |}.

Definition pod (name : string) (labels annotations : gmap string string) : Pod.t :=
  {| Pod.ObjectMeta := meta name "prod" ("uid-" +:+ name) "1" labels annotations [] |}.

Definition instance (id zone : string) : Instance.t :=
  {| Instance.ID := id; Instance.IsolationGroup := zone;
     Instance.IsAvailable := true |}.

Definition identity (p : Pod.t) : PodIdentity.t :=
  {| PodIdentity.Name := Pod.Name p;
     PodIdentity.UID := ObjectMeta.UID (Pod.ObjectMeta p);
     PodIdentity.NodeName := EmptyString;
     PodIdentity.NodeExternalID := EmptyString;
     PodIdentity.NodeProviderID := EmptyString |}.

(** An environment in which every call succeeds: the services exist, the
    caches hold [sets] and [pods], the DB holds the placement [instances]
    and the namespaces [live], the cluster lister knows [clusters]. *)
Definition env (clusters : list M3DBCluster.t) (sets : list StatefulSet.t)
    (pods : list Pod.t) (instances : list Instance.t) (live : list string) : Env :=
  {| labels_Cluster := clusterKey;
     labels_IsolationGroup := isoKey;
     labels_BaseLabels := fun _ => ∅;
     AnnotationKeyPodIdentity := identityKey;
     clusterGet := fun namespace name =>
       match List.find (fun c => String.eqb (M3DBCluster.Namespace c) namespace
                                 && String.eqb (M3DBCluster.Name c) name) clusters with
       | Some c => GotObject c
       | None => GotNotFound "not found"
       end;
     podGet := fun namespace name =>
       match List.find (fun p => String.eqb (Pod.Namespace p) namespace
                                 && String.eqb (Pod.Name p) name) pods with
       | Some p => GotObject p
       | None => GotNotFound "not found"
       end;
     statefulSetCache := fun _ => sets;
     statefulSetListErr := fun _ => None;
     podCache := pods;
     podListErr := None;
     absentServices := fun _ => [];
     serviceCreate := fun _ => None;
     statefulSetCreate := fun _ => None;
     statefulSetUpdate := fun s => (s, None);
     podUpdate := fun _ => None;
     clusterStatusUpdate := fun _ => None;
     placementGet := fun _ => Ok {| Placement.Instances := instances |};
     placementInit := fun _ => None;
     placementAdd := fun _ => None;
     placementRemove := fun _ => None;
     namespaceList := Ok live;
     namespaceCreate := fun _ => None;
     namespaceDelete := fun _ => None;
     podIdentity := fun p _ => Ok (identity p);
     identityJSON := fun id => Ok ("{name:" +:+ PodIdentity.Name id +:+ "}");
     podOrdinal := fun _ => 0%Z;
     bootstrapMarkers := fun _ => [] |}.

End Sample.

(** ** Phases of a tick *)

(** Lines 334-449 of [handleClusterUpdate]: all that precedes the loop over
    the child sets.  It goes on with the sorted groups, the live placement
    and the second listing of the child sets. *)
Definition beforeScaling (e : Env) (cluster : M3DBCluster.t)
    : M (list IsolationGroup.t * Placement.t * list StatefulSet.t) :=
  do (isoGroups, childrenSets) <- listChildren e cluster;
  do_ readinessGate childrenSets;
  do_ createStatefulSet e cluster isoGroups childrenSets;
  do (placement, childrenSets) <- fetchPlacement e cluster;
  ret (isoGroups, placement, childrenSets).

(** Return after mutate: a piece of a body that issued no call of the kind
    [p] when it goes on, and at most one when it leaves the function. *)
Definition oneThenExit {A} (p : Call -> bool) (m : M A) : Prop :=
  match m with
  | (t, Next _) => count p t = 0%nat
  | (t, Exit _) => (count p t <= 1)%nat
  end.

(** ** Scenarios *)

Module Scenario.
Import Sample.

(** A pod without the cluster label, and the caches that hold it. *)
Definition stray : Pod.t := pod "stray" ∅ ∅.
Definition env_stray : Env := env [] [] [stray] [] [].

(** A cluster of one group. *)
Definition m3_one : M3DBCluster.t := cluster [group "a" 1] [] [].

(** An annotated member pod whose stored identity is not the fresh one. *)
Definition annotated : Pod.t :=
  pod "m3-0-0" {[ clusterKey := "m3" ]} {[ identityKey := "{name:other}" ]}.
Definition env_annotated : Env := env [m3_one] [] [annotated] [] [].

(** A set before and after it became ready, and after a metadata change. *)
Definition set_a : StatefulSet.t := sts "m3-0" "a" (Some 1%Z) 0%Z.
Definition set_a_resynced : StatefulSet.t := bootstrapped set_a.
Definition set_a_changed : StatefulSet.t :=
  {| StatefulSet.ObjectMeta :=
       meta "m3-0" "prod" EmptyString "2" {[ isoKey := "a" ]} ∅ [owner];
     StatefulSet.Spec_Replicas := Some 1%Z;
     StatefulSet.Status_ReadyReplicas := 1%Z |}.
Definition env_one : Env := env [m3_one] [set_a] [] [] [].

(** A cluster without isolation groups, all its services in place. *)
Definition m3_empty : M3DBCluster.t := cluster [] [] [].
Definition env_empty : Env := env [m3_empty] [] [] [] [].

(** The cluster of one group with two ready child sets: the spec lost an
    isolation group after its set had been created. *)
Definition set_a_ready : StatefulSet.t := sts "m3-0" "a" (Some 1%Z) 1%Z.
Definition set_b_ready : StatefulSet.t := sts "m3-1" "b" (Some 1%Z) 1%Z.
Definition env_surplus : Env := env [m3_one] [set_a_ready; set_b_ready] [] [] [].

(** A cluster with an initialised placement whose one group, of two
    instances, is at its size; the second pod is not in the placement
    yet, and the declared namespace does not exist on the DB yet. *)
Definition m3_grown : M3DBCluster.t := cluster [group "a" 2] ["metrics"] initialized.
Definition set_a_two : StatefulSet.t := sts "m3-0" "a" (Some 2%Z) 2%Z.
Definition pods_a : list Pod.t :=
  [pod "m3-0-0" {[ isoKey := "a" ]} ∅; pod "m3-0-1" {[ isoKey := "a" ]} ∅].
Definition env_grown : Env :=
  env [m3_grown] [set_a_two] pods_a [instance "m3-0-0" "a"] [].


(** A cluster of one group, its placement initialised, whose child set
    declares no replica count. *)
Definition m3_live : M3DBCluster.t := cluster [group "a" 1] ["metrics"] initialized.
Definition set_a_unset : StatefulSet.t := sts "m3-0" "a" None 0%Z.
Definition env_unset : Env :=
  env [m3_live] [set_a_unset] [] [instance "m3-0-0" "a"] ["metrics"].

End Scenario.

(** ** The worker loops *)

(** How a worker loop ends: the queue shut down, a handler panicked, or the
    loop is waiting in [Get] because nothing more was delivered. *)
Inductive LoopEnd := Stopped | Crashed | Waiting.

(** [for process() {}] over what the queue delivers, one item at a time. *)
Fixpoint runLoop {W : Type} (process : W -> QueueItem -> list Call * option bool)
    (deliveries : list (W * QueueItem)) : list Call * LoopEnd :=
  match deliveries with
  | [] => ([], Waiting)
  | (w, item) :: rest =>
      match process w item with
      | (t, Some true) => let '(t', r) := runLoop process rest in (t ++ t', r)
      | (t, Some false) => (t, Stopped)
      | (t, None) => (t, Crashed)
      end
  end.

(** [runClusterLoop], lines 262-265, and [runPodLoop], lines 616-619; each
    item is delivered in the environment of its time. *)
Definition runClusterLoop (deliveries : list (Env * QueueItem)) : list Call * LoopEnd :=
  runLoop processClusterQueueItem deliveries.

Definition runPodLoop (deliveries : list (Env * QueueItem)) : list Call * LoopEnd :=
  runLoop processPodQueueItem deliveries.

(** ** Kinds of calls *)

Definition isDone (c : Call) : bool :=
  match c with
  | Done _ _ => true
  | _ => false
  end.

Definition isForget (c : Call) : bool :=
  match c with
  | Forget _ _ => true
  | _ => false
  end.

Definition isQueueCall (c : Call) : bool :=
  match c with
  | AddRateLimited _ _ | Forget _ _ | Done _ _ => true
  | _ => false
  end.

Definition isNormalEvent (c : Call) : bool :=
  match c with
  | NormalEvent _ _ _ => true
  | _ => false
  end.

(** The writes of the scaling loop: a resize, an expansion, a shrink. *)
Definition isScalingWrite (c : Call) : bool :=
  match c with
  | StatefulSetUpdate _ _ | PlacementAdd _ | PlacementRemove _ => true
  | _ => false
  end.

(** The calls of a tick before the loop over the child sets. *)
Definition beforeLoopCall (c : Call) : bool :=
  match c with
  | ServiceCreate _ | StatefulSetCreate _ _ | ClusterStatusUpdate _
  | NamespaceCreate _ | NamespaceDelete _ | PlacementInit _
  | StatefulSetList _ _ | PodList _ _ | NamespaceList | PlacementGet
  | WarningEvent _ _ _ | Log _ _ _ | HandleError _ => true
  | _ => false
  end.

(** The calls of the loop over the child sets. *)
Definition loopCall (c : Call) : bool :=
  match c with
  | StatefulSetUpdate _ _ | PlacementAdd _ | PlacementRemove _
  | PodList _ _ | Log _ _ _ => true
  | _ => false
  end.

(** The calls of a tick after the loop. *)
Definition finishCall (c : Call) : bool :=
  match c with
  | PlacementGet | ClusterStatusUpdate _ | Log _ _ _ | NormalEvent _ _ _ => true
  | _ => false
  end.

Definition isClusterTickCall (c : Call) : bool :=
  beforeLoopCall c || loopCall c || finishCall c.

(** The calls of the pod handler. *)
Definition isPodTickCall (c : Call) : bool :=
  match c with
  | PodUpdate _ _ | ClusterGet _ _ | Identity _ | IdentityJSON | Log _ _ _ => true
  | _ => false
  end.

Fixpoint has_slash (s : string) : bool :=
  match s with
  | EmptyString => false
  | String c r => Ascii.eqb c "/"%char || has_slash r
  end.

(** ** More scenarios *)

Module Cases.
Import Sample.

(** A member pod without identity annotation, its cluster known. *)
Definition fresh : Pod.t := pod "m3-0-0" {[ clusterKey := "m3" ]} ∅.
Definition env_fresh : Env := env [Scenario.m3_one] [] [fresh] [] [].

(** The grown cluster with an instance still initializing. *)
Definition initializing : Instance.t :=
  {| Instance.ID := "m3-0-1"; Instance.IsolationGroup := "a";
     Instance.IsAvailable := false |}.
Definition env_initializing : Env :=
  env [Scenario.m3_grown] [Scenario.set_a_two] Scenario.pods_a
    [instance "m3-0-0" "a"; initializing] ["metrics"].

(** A converged cluster: one group of one instance, in the placement. *)
Definition env_converged : Env :=
  env [Scenario.m3_live] [Scenario.set_a_ready] [] [instance "m3-0-0" "a"] ["metrics"].

(** A child set without isolation-group label, and one of an unknown zone. *)
Definition set_unlabeled : StatefulSet.t :=
  {| StatefulSet.ObjectMeta := meta "m3-0" "prod" EmptyString "1" ∅ ∅ [owner];
     StatefulSet.Spec_Replicas := Some 1%Z;
     StatefulSet.Status_ReadyReplicas := 1%Z |}.
Definition env_unlabeled : Env :=
  env [Scenario.m3_live] [set_unlabeled] [] [instance "m3-0-0" "a"] ["metrics"].

(** A set that has to shrink from three replicas to one. *)
Definition set_a_large : StatefulSet.t := sts "m3-0" "a" (Some 3%Z) 3%Z.

(** A placement over two groups. *)
Definition placement_ab : Placement.t :=
  {| Placement.Instances :=
       [instance "m3-0-0" "a"; instance "m3-1-0" "b"; instance "m3-0-1" "a"] |}.

(** A cluster of two groups, both sets at their size; the placement holds
    one instance of each group, so group a is one instance short while the
    placement as a whole has as many instances as group a has replicas. *)
Definition m3_ab : M3DBCluster.t :=
  cluster [group "a" 2; group "b" 1] ["metrics"] initialized.
Definition pods_ab : list Pod.t :=
  Scenario.pods_a ++ [pod "m3-1-0" {[ isoKey := "b" ]} ∅].
Definition placement_short : Placement.t :=
  {| Placement.Instances := [instance "m3-0-0" "a"; instance "m3-1-0" "b"] |}.
Definition env_short : Env :=
  env [m3_ab] [Scenario.set_a_two; Scenario.set_b_ready] pods_ab
    (Placement.Instances placement_short) ["metrics"].

(** The cluster of one group whose child set is not ready yet, with a
    service that is absent and cannot be created. *)
Definition env_no_service : Env :=
  let e := Scenario.env_one in
  {| labels_Cluster := labels_Cluster e;
     labels_IsolationGroup := labels_IsolationGroup e;
     labels_BaseLabels := labels_BaseLabels e;
     AnnotationKeyPodIdentity := AnnotationKeyPodIdentity e;
     clusterGet := clusterGet e;
     podGet := podGet e;
     statefulSetCache := statefulSetCache e;
     statefulSetListErr := statefulSetListErr e;
     podCache := podCache e;
     podListErr := podListErr e;
     absentServices := fun _ => ["m3dbnode-m3"];
     serviceCreate := fun _ => Some "services is forbidden";
     statefulSetCreate := statefulSetCreate e;
     statefulSetUpdate := statefulSetUpdate e;
     podUpdate := podUpdate e;
     clusterStatusUpdate := clusterStatusUpdate e;
     placementGet := placementGet e;
     placementInit := placementInit e;
     placementAdd := placementAdd e;
     placementRemove := placementRemove e;
     namespaceList := namespaceList e;
     namespaceCreate := namespaceCreate e;
     namespaceDelete := namespaceDelete e;
     podIdentity := podIdentity e;
     identityJSON := identityJSON e;
     podOrdinal := podOrdinal e;
     bootstrapMarkers := bootstrapMarkers e |}.

(** A labeled cluster and a cache of six sets, of which two are its
    children: the others lie in another namespace, lack the cluster's
    label, or have another controller. *)
Definition appLabels : gmap string string := {[ "app" := "m3db" ]}.
Definition m3_labeled : M3DBCluster.t :=
  {| M3DBCluster.ObjectMeta := meta "m3" "prod" "uid-m3" "7" appLabels ∅ [];
     M3DBCluster.Spec_ReplicationFactor := 1;
     M3DBCluster.Spec_NumberOfShards := 256;
     M3DBCluster.Spec_IsolationGroups := [group "a" 1];
     M3DBCluster.Spec_Namespaces := [];
     M3DBCluster.Status_Conditions := [] |}.
Definition other_owner : OwnerReference.t :=
  {| OwnerReference.Kind := "m3dbcluster";
     OwnerReference.Name := "other";
     OwnerReference.UID := "uid-other";
     OwnerReference.Controller := Some true |}.
Definition plain_reference (uid : string) : OwnerReference.t :=
  {| OwnerReference.Kind := "m3dbcluster";
     OwnerReference.Name := "m3";
     OwnerReference.UID := uid;
     OwnerReference.Controller := None |}.
Definition set_of (name namespace : string) (labels : gmap string string)
    (owners : list OwnerReference.t) : StatefulSet.t :=
  {| StatefulSet.ObjectMeta := meta name namespace EmptyString "1" labels ∅ owners;
     StatefulSet.Spec_Replicas := Some 1%Z;
     StatefulSet.Status_ReadyReplicas := 1%Z |}.
Definition child_first : StatefulSet.t :=
  set_of "m3-0" "prod" (<[isoKey := "a"]> appLabels) [owner].
Definition child_second : StatefulSet.t :=
  set_of "m3-1" "prod" appLabels [plain_reference "uid-other"; owner].
Definition mixed_cache : list StatefulSet.t :=
  [ child_first;
    set_of "m3-0" "staging" appLabels [owner];
    set_of "db-0" "prod" {[ isoKey := "a" ]} [owner];
    set_of "other-0" "prod" appLabels [other_owner];
    set_of "other-1" "prod" appLabels [plain_reference "uid-m3"; other_owner];
    child_second ].
Definition env_mixed : Env := env [m3_labeled] mixed_cache [] [] [].

End Cases.

(** ** Basic facts *)

Lemma count_app (p : Call -> bool) (t t' : list Call) :
  count p (t ++ t') = (count p t + count p t')%nat.
Proof. induction t as [|c t IH]; simpl; [done|]. rewrite IH. lia. Qed.

Lemma count_cons (p : Call -> bool) (c : Call) (t : list Call) :
  count p (c :: t) = ((if p c then 1 else 0) + count p t)%nat.
Proof. done. Qed.

Lemma count_nil (p : Call -> bool) : count p [] = 0%nat.
Proof. done. Qed.

Lemma bind_Next {A B} (t : list Call) (a : A) (f : A -> M B) :
  bind (t, Next a) f = (t ++ (f a).1, (f a).2).
Proof. simpl. by destruct (f a). Qed.

Lemma bind_Exit {A B} (t : list Call) (o : Outcome) (f : A -> M B) :
  bind (t, Exit o) f = (t, Exit o).
Proof. done. Qed.

Lemma bind_ret {A B} (a : A) (f : A -> M B) : bind (ret a) f = f a.
Proof. unfold ret. simpl. by destruct (f a). Qed.

Lemma bind_assoc {A B C} (m : M A) (f : A -> M B) (g : B -> M C) :
  bind (bind m f) g = bind m (fun a => bind (f a) g).
Proof.
  destruct m as [t [a|o]]; [|done]. simpl.
  destruct (f a) as [t' [b|o]]; simpl; [|done].
  destruct (g b) as [t'' r]. by rewrite app_assoc.
Qed.

Lemma run_Exit (t : list Call) (o : Outcome) : run (t, Exit o) = (t, o).
Proof. done. Qed.

(** Case analysis along the matches of a function body. *)
Ltac walk := repeat (simpl in *; try done; case_match; simplify_eq).

(** ** The pod handler: orphans and sticky identities *)

Lemma handlePodUpdate_annotated (e : Env) (pod : Pod.t) (currentID : string) :
  Pod.Annotations pod !! AnnotationKeyPodIdentity e = Some currentID ->
  count isPodUpdate (handlePodUpdate e pod).1 = 0%nat.
Proof.
  intros Hann. unfold handlePodUpdate, handlePodUpdate_body.
  unfold getParentCluster, call, return_, exit, ret.
  rewrite Hann. walk.
Qed.

Lemma fold_applyPodCall_quiet (e : Env) (t : list Call) (pod : Pod.t) :
  count isPodUpdate t = 0%nat -> fold_left (applyPodCall e) t pod = pod.
Proof.
  induction t as [|c t IH]; [done|].
  rewrite count_cons. intros H. simpl.
  destruct c; simpl in *; try (apply IH; lia). lia.
Qed.

(** C8: a pod without the cluster-membership label ends the pod handler at
    once: it returns nil and issues no call at all (no parent-cluster
    lookup, no identity computation, no pod update); the worker then forgets
    the key instead of adding it to the queue again. *)
Theorem orphan_pod_is_dropped (e : Env) (pod : Pod.t) :
  Pod.Labels pod !! labels_Cluster e = None ->
  handlePodUpdate e pod = ([], Return None)
  /\ forall key namespace name,
       SplitMetaNamespaceKey key = Ok (namespace, name) ->
       podGet e namespace name = GotObject pod ->
       processPodQueueItem e (QString key)
       = ([CounterInc "dequeued_event"; PodGet namespace name;
           Forget podWorkQueue key;
           Log Debug "successfully synced item" [zap_String "key" key];
           Done podWorkQueue key], Some true).
Proof.
  intros Hlabel.
  assert (Hupd : handlePodUpdate e pod = ([], Return None)).
  { unfold handlePodUpdate, handlePodUpdate_body, getClusterValue.
    by rewrite Hlabel. }
  split; [done|].
  intros key namespace name Hkey Hget.
  unfold processPodQueueItem, processQueueItem, handlePodEvent.
  by rewrite Hkey, Hget, Hupd.
Qed.

Lemma orphan_pod_is_dropped_witness :
  handlePodUpdate Scenario.env_stray Scenario.stray = ([], Return None)
  /\ count isEnqueue
       (processPodQueueItem Scenario.env_stray (QString "prod/stray")).1 = 0%nat.
Proof.
  assert (Hlabel : Pod.Labels Scenario.stray !! labels_Cluster Scenario.env_stray = None)
    by reflexivity.
  destruct (orphan_pod_is_dropped Scenario.env_stray Scenario.stray Hlabel)
    as [Hupd Hqueue].
  split; [exact Hupd|].
  rewrite (Hqueue "prod/stray" "prod" "stray" eq_refl eq_refl).
  reflexivity.
Defined.

(** C7: the pod handler never updates a pod that carries the identity
    annotation.  When the handler gets as far as the comparison, it logs
    the warning "pod ID mismatch" exactly when the stored identity differs
    from the fresh one, and returns nil either way.  The stored pod is
    therefore the same after any number of invocations. *)
Theorem identity_annotation_is_sticky (e : Env) (pod : Pod.t) (currentID : string) :
  Pod.Annotations pod !! AnnotationKeyPodIdentity e = Some currentID ->
  count isPodUpdate (handlePodUpdate e pod).1 = 0%nat
  /\ (forall t cluster id idStr,
        getParentCluster e pod = (t, Ok cluster) ->
        podIdentity e pod cluster = Ok id ->
        identityJSON e id = Ok idStr ->
        let podLogger := [zap_String "pod" (Pod.Name pod)] in
        handlePodUpdate e pod
        = (Log Info "processing pod" podLogger :: t ++
             [Identity (Pod.Name pod); IdentityJSON;
              Log Info "pod ID" (podLogger ++ [zap_Any "id" id])] ++
             (if String.eqb currentID idStr then []
              else [Log Warn "pod ID mismatch"
                      (podLogger ++ [zap_String "currentID" currentID;
                                     zap_String "newID" idStr])]),
           Return None))
  /\ (forall envs,
        Forall (fun e' => AnnotationKeyPodIdentity e' = AnnotationKeyPodIdentity e) envs ->
        podAfterAll envs pod = pod).
Proof.
  intros Hann. split; [by eapply handlePodUpdate_annotated|]. split.
  - intros t cluster id idStr Hparent Hid Hjson podLogger.
    unfold handlePodUpdate, handlePodUpdate_body.
    assert (Hfound : (getClusterValue e pod).2 = true).
    { unfold getParentCluster in Hparent.
      destruct (getClusterValue e pod) as [? []]; [done|]. by simplify_eq. }
    rewrite Hfound, Hparent. unfold call, return_, exit, ret. simpl.
    rewrite Hid. simpl. rewrite Hjson. simpl. rewrite Hann.
    destruct (String.eqb currentID idStr); simpl;
      rewrite <- ?app_assoc; simpl; by rewrite ?app_nil_r.
  - intros envs Henvs. unfold podAfterAll.
    induction Henvs as [|e' envs He' _ IH]; [done|].
    simpl. unfold podAfter at 2.
    rewrite fold_applyPodCall_quiet; [exact IH|].
    eapply handlePodUpdate_annotated. by rewrite He'.
Qed.

Lemma identity_annotation_is_sticky_witness :
  count isPodUpdate (handlePodUpdate Scenario.env_annotated Scenario.annotated).1 = 0%nat
  /\ In (Log Warn "pod ID mismatch"
           [zap_String "pod" "m3-0-0"; zap_String "currentID" "{name:other}";
            zap_String "newID" "{name:m3-0-0}"])
        (handlePodUpdate Scenario.env_annotated Scenario.annotated).1
  /\ podAfterAll [Scenario.env_annotated; Scenario.env_annotated] Scenario.annotated
     = Scenario.annotated.
Proof.
  assert (Hann : Pod.Annotations Scenario.annotated
                   !! AnnotationKeyPodIdentity Scenario.env_annotated
                 = Some "{name:other}") by reflexivity.
  destruct (identity_annotation_is_sticky Scenario.env_annotated Scenario.annotated
              _ Hann) as (Hquiet & Hwarn & Hsame).
  split; [exact Hquiet|]. split.
  - rewrite (Hwarn _ _ _ _ eq_refl eq_refl eq_refl). vm_compute. tauto.
  - apply Hsame. repeat constructor.
Defined.

(** ** The stateful-set informer *)

(** C10: an update event whose old and new object carry the same resource
    version ends the update callback without any call, so no cluster key is
    enqueued; with different resource versions the callback does what the
    add callback does on the new object: it resolves the controller owner
    reference and, when that names a cluster the lister knows, enqueues the
    key of that cluster. *)
Theorem resync_update_is_suppressed (e : Env) (old new : StatefulSet.t) :
  (StatefulSet.ResourceVersion new = StatefulSet.ResourceVersion old ->
   StatefulSetInformer.UpdateFunc e old new = ([], Return None))
  /\ (StatefulSet.ResourceVersion new <> StatefulSet.ResourceVersion old ->
      StatefulSetInformer.UpdateFunc e old new
      = StatefulSetInformer.AddFunc e (MetaObject (StatefulSet.ObjectMeta new))
      /\ forall owner cluster,
           GetControllerOf (StatefulSet.ObjectMeta new) = Some owner ->
           OwnerReference.Kind owner = "m3dbcluster" ->
           clusterGet e (StatefulSet.Namespace new) (OwnerReference.Name owner)
           = GotObject cluster ->
           StatefulSetInformer.UpdateFunc e old new
           = ([Log Info "processing statefulset"
                 [zap_String "name" (StatefulSet.Name new)];
               ClusterGet (StatefulSet.Namespace new) (OwnerReference.Name owner);
               AddRateLimited clusterWorkQueue
                 (MetaNamespaceKey (M3DBCluster.ObjectMeta cluster));
               CounterInc "enqueued_event"], Return None)).
Proof.
  unfold StatefulSetInformer.UpdateFunc, StatefulSetInformer.AddFunc. split.
  - intros ->. by rewrite String.eqb_refl.
  - intros Hne.
    destruct (String.eqb_spec (StatefulSet.ResourceVersion new)
                (StatefulSet.ResourceVersion old)) as [|_]; [done|].
    split; [done|].
    intros owner cluster Howner Hkind Hget.
    unfold handleStatefulSetUpdate, enqueueOwner.
    rewrite Howner, Hkind. simpl.
    unfold StatefulSet.Namespace in Hget. by rewrite Hget.
Qed.

Lemma resync_update_is_suppressed_witness :
  StatefulSetInformer.UpdateFunc Scenario.env_one Scenario.set_a Scenario.set_a_resynced
  = ([], Return None)
  /\ (StatefulSetInformer.UpdateFunc Scenario.env_one Scenario.set_a
        Scenario.set_a_changed).1
     = [Log Info "processing statefulset" [zap_String "name" "m3-0"];
        ClusterGet "prod" "m3"; AddRateLimited clusterWorkQueue "prod/m3";
        CounterInc "enqueued_event"].
Proof.
  split.
  - apply (proj1 (resync_update_is_suppressed Scenario.env_one Scenario.set_a
                    Scenario.set_a_resynced)). reflexivity.
  - assert (Hne : StatefulSet.ResourceVersion Scenario.set_a_changed
                  <> StatefulSet.ResourceVersion Scenario.set_a)
      by (vm_compute; discriminate).
    destruct (proj2 (resync_update_is_suppressed Scenario.env_one Scenario.set_a
                       Scenario.set_a_changed) Hne) as [_ Henq].
    rewrite (Henq Sample.owner Scenario.m3_one eq_refl eq_refl eq_refl). reflexivity.
Defined.

(** ** The cluster handler: traces of its pieces *)

Lemma count_Forall_false (p : Call -> bool) (t : list Call) :
  Forall (fun c => p c = false) t -> count p t = 0%nat.
Proof.
  induction 1 as [|c t Hc _ IH]; [done|]. by rewrite count_cons, Hc, IH.
Qed.

Lemma count_le (p q : Call -> bool) (t : list Call) :
  (forall c, p c = true -> q c = true) -> (count p t <= count q t)%nat.
Proof.
  intros Hpq. induction t as [|c t IH]; [done|].
  rewrite !count_cons. specialize (Hpq c).
  destruct (p c) eqn:Hp, (q c) eqn:Hq; try lia;
    specialize (Hpq eq_refl); discriminate.
Qed.

Lemma forEachWrite_Forall (mk : string -> Call) (answer : string -> option error)
    (names : list string) :
  Forall (fun c => exists n, c = mk n) (forEachWrite mk answer names).1.
Proof.
  induction names as [|n names IH]; simpl; [constructor|].
  destruct (answer n); simpl.
  - repeat constructor. by exists n.
  - destruct (forEachWrite mk answer names) as [t r]. simpl in *.
    constructor; [by exists n|done].
Qed.

Lemma forEachWrite_quiet (p : Call -> bool) (mk : string -> Call)
    (answer : string -> option error) (names : list string) :
  (forall n, p (mk n) = false) ->
  count p (forEachWrite mk answer names).1 = 0%nat.
Proof.
  intros Hp. apply count_Forall_false.
  eapply Forall_impl; [apply forEachWrite_Forall|].
  intros c [n ->]. apply Hp.
Qed.

Lemma ensureServices_quiet (p : Call -> bool) (e : Env) (cluster : M3DBCluster.t) :
  (forall n, p (ServiceCreate n) = false) ->
  count p (ensureServices e cluster).1 = 0%nat.
Proof. apply forEachWrite_quiet. Qed.

Lemma getChildStatefulSets_quiet (p : Call -> bool) (e : Env) (read : nat)
    (cluster : M3DBCluster.t) :
  (forall ns sel, p (StatefulSetList ns sel) = false) ->
  (forall msg, p (HandleError msg) = false) ->
  count p (getChildStatefulSets e read cluster).1 = 0%nat.
Proof.
  intros Hlist Herr. unfold getChildStatefulSets.
  destruct (statefulSetLister_List _ _ _ _); simpl;
    rewrite ?Hlist, ?Herr; done.
Qed.

(** The first phase, by cases on what the services step and the listing
    answer. *)
Lemma listChildren_cases (e : Env) (cluster : M3DBCluster.t) :
  listChildren e cluster =
  match ensureServices e cluster with
  | (t0, Some err) => (t0, Exit (Return (Some err)))
  | (t0, None) =>
      if Nat.eqb (length (M3DBCluster.Spec_IsolationGroups cluster)) 0
      then (t0, Exit (Return None))
      else
        match getChildStatefulSets e 0 cluster with
        | (t, Err err) => (t0 ++ t, Exit (Return (Some err)))
        | (t, Ok sets) =>
            (t0 ++ t,
             Next (sortIsolationGroups (M3DBCluster.Spec_IsolationGroups cluster), sets))
        end
  end.
Proof.
  unfold listChildren.
  destruct (ensureServices e cluster) as [t0 [err|]]; simpl; [done|].
  destruct (Nat.eqb _ 0); simpl; [by rewrite app_nil_r|].
  destruct (getChildStatefulSets e 0 cluster) as [t [sets|err]]; simpl;
    by rewrite ?app_nil_r.
Qed.

Lemma readinessGate_ready (sets : list StatefulSet.t) :
  (forall s, In s sets -> unready s = false) ->
  readinessGate sets = ([], Next tt).
Proof.
  induction sets as [|s sets IH]; intros Hready; [done|]. simpl.
  pose proof (Hready s (or_introl eq_refl)) as Hs. unfold unready in Hs.
  destruct (StatefulSet.Spec_Replicas s); [rewrite Hs|];
    apply IH; intros; apply Hready; by right.
Qed.

Lemma readinessGate_unready (sets : list StatefulSet.t) :
  (exists s, In s sets /\ unready s = true) ->
  exists s, In s sets /\ unready s = true /\
    readinessGate sets
    = ([Log Info "waiting for statefulset to be ready"
          [zap_String "name" (StatefulSet.Name s);
           zap_Int32 "ready" (StatefulSet.Status_ReadyReplicas s)]],
       Exit (Return None)).
Proof.
  induction sets as [|s sets IH]; intros (s' & Hin & Hs'); [done|].
  destruct (unready s) eqn:Hs.
  - exists s. split; [by left|]. split; [done|]. simpl.
    unfold unready in Hs. destruct (StatefulSet.Spec_Replicas s); [|done].
    by rewrite Hs.
  - destruct Hin as [->|Hin]; [congruence|].
    destruct IH as (s'' & Hin'' & Hs'' & Hgate); [by exists s'|].
    exists s''. split; [by right|]. split; [done|]. simpl.
    unfold unready in Hs. destruct (StatefulSet.Spec_Replicas s); [rewrite Hs|]; done.
Qed.

Lemma handleClusterUpdate_no_groups (e : Env) (cluster : M3DBCluster.t) :
  M3DBCluster.Spec_IsolationGroups cluster = [] ->
  handleClusterUpdate e cluster
  = ((ensureServices e cluster).1, Return (ensureServices e cluster).2).
Proof.
  intros Hempty. unfold handleClusterUpdate, handleClusterUpdate_body.
  rewrite listChildren_cases, Hempty.
  by destruct (ensureServices e cluster) as [t0 [err|]].
Qed.

(** ** The readiness gate and the guard on an empty group list *)

(** The claim C3 fails when the services step, which comes before the gate
    (lines 339-341), fails: the one child set of the cluster declares one
    replica and has none ready, and the tick does not return nil but the
    error of the service creation. *)
Lemma unready_child_and_failing_services :
  getChildStatefulSets Cases.env_no_service 0 Scenario.m3_one
  = ([StatefulSetList "prod" ∅], Ok [Scenario.set_a])
  /\ StatefulSet.Spec_Replicas Scenario.set_a = Some 1%Z
  /\ StatefulSet.Status_ReadyReplicas Scenario.set_a = 0%Z
  /\ handleClusterUpdate Cases.env_no_service Scenario.m3_one
     = ([ServiceCreate "m3dbnode-m3"], Return (Some "services is forbidden")).
Proof. by vm_compute. Qed.

(** C3, amended: when the child sets the tick lists include one whose
    declared replica count is set and differs from its ready replica count,
    the tick issues no mutation (no group is created, no replica count is
    updated, no placement or namespace write is made); it returns nil when
    the services step, which comes first, has succeeded, and the error of
    the services step, right after that step, when it has failed. *)
Theorem readiness_gate_blocks_mutations (e : Env) (cluster : M3DBCluster.t)
    (t : list Call) (sets : list StatefulSet.t) (sts : StatefulSet.t) (declared : Z) :
  getChildStatefulSets e 0 cluster = (t, Ok sets) ->
  In sts sets ->
  StatefulSet.Spec_Replicas sts = Some declared ->
  declared <> StatefulSet.Status_ReadyReplicas sts ->
  count isMutation (handleClusterUpdate e cluster).1 = 0%nat
  /\ ((ensureServices e cluster).2 = None ->
      (handleClusterUpdate e cluster).2 = Return None)
  /\ (forall err,
        (ensureServices e cluster).2 = Some err ->
        handleClusterUpdate e cluster
        = ((ensureServices e cluster).1, Return (Some err))).
Proof.
  intros Hlist Hin Hdeclared Hne.
  assert (Hunready : exists s, In s sets /\ unready s = true).
  { exists sts. split; [done|]. unfold unready. rewrite Hdeclared.
    apply negb_true_iff. by apply Z.eqb_neq. }
  destruct (readinessGate_unready sets Hunready) as (s & _ & _ & Hgate).
  pose proof (ensureServices_quiet isMutation e cluster (fun _ => eq_refl)) as Hsvc.
  pose proof (getChildStatefulSets_quiet isMutation e 0 cluster
                (fun _ _ => eq_refl) (fun _ => eq_refl)) as Hq.
  unfold handleClusterUpdate, handleClusterUpdate_body.
  rewrite listChildren_cases.
  destruct (ensureServices e cluster) as [t0 [err|]]; simpl in *.
  { split; [done|]. split; [done|]. by intros err' [= <-]. }
  destruct (Nat.eqb _ 0); simpl; [done|].
  rewrite Hlist in *. simpl in *. rewrite Hgate. simpl.
  rewrite !count_app, Hsvc, Hq. done.
Qed.

Lemma readiness_gate_blocks_mutations_witness :
  count isMutation (handleClusterUpdate Scenario.env_one Scenario.m3_one).1 = 0%nat
  /\ (handleClusterUpdate Scenario.env_one Scenario.m3_one).2 = Return None.
Proof.
  assert (Hne : 1%Z <> StatefulSet.Status_ReadyReplicas Scenario.set_a)
    by (vm_compute; discriminate).
  destruct (readiness_gate_blocks_mutations Scenario.env_one Scenario.m3_one
              [StatefulSetList "prod" ∅] [Scenario.set_a] Scenario.set_a 1%Z
              eq_refl (or_introl eq_refl) eq_refl Hne) as (Hquiet & Hnil & _).
  split; [exact Hquiet|]. apply Hnil. reflexivity.
Defined.

(** The claim C6 fails on a cluster without isolation groups whose services
    exist: the tick returns nil, records no event of reason
    [IsolationGroupsMissing] (it issues no call at all), and the worker
    reports the key as synced. *)
Lemma no_isolation_groups_no_warning :
  handleClusterUpdate Scenario.env_empty Scenario.m3_empty = ([], Return None)
  /\ count (isWarningEvent ReasonIsolationGroupsMissing)
       (handleClusterEvent Scenario.env_empty "prod/m3").1 = 0%nat
  /\ (handleClusterEvent Scenario.env_empty "prod/m3").2 = Return None.
Proof. by vm_compute. Qed.

(** C6, amended: on a cluster without isolation groups the tick does the
    services step and nothing else: its calls are the service creations of
    that step, its result is the result of that step (nil when the services
    are in place or were created).  So it issues no group, placement or
    namespace write and records no warning event, of reason
    [IsolationGroupsMissing] or of any other. *)
Theorem no_isolation_groups_only_services (e : Env) (cluster : M3DBCluster.t) :
  M3DBCluster.Spec_IsolationGroups cluster = [] ->
  handleClusterUpdate e cluster
  = ((ensureServices e cluster).1, Return (ensureServices e cluster).2)
  /\ Forall (fun c => exists name, c = ServiceCreate name)
       (handleClusterUpdate e cluster).1
  /\ count isMutation (handleClusterUpdate e cluster).1 = 0%nat
  /\ forall reason,
       count (isWarningEvent reason) (handleClusterUpdate e cluster).1 = 0%nat.
Proof.
  intros Hempty.
  pose proof (handleClusterUpdate_no_groups e cluster Hempty) as Heq.
  rewrite Heq. simpl. split; [done|]. split; [apply forEachWrite_Forall|].
  split; [|intros reason]; by apply ensureServices_quiet.
Qed.

Lemma no_isolation_groups_only_services_witness :
  handleClusterUpdate Scenario.env_empty Scenario.m3_empty
  = ((ensureServices Scenario.env_empty Scenario.m3_empty).1,
     Return (ensureServices Scenario.env_empty Scenario.m3_empty).2).
Proof.
  exact (proj1 (no_isolation_groups_only_services Scenario.env_empty
                  Scenario.m3_empty eq_refl)).
Defined.

(** ** Creating the next group *)

Lemma createStatefulSet_surplus (e : Env) (cluster : M3DBCluster.t)
    (isoGroups : list IsolationGroup.t) (childrenSets : list StatefulSet.t) :
  (length isoGroups < length childrenSets)%nat ->
  createStatefulSet e cluster isoGroups childrenSets
  = ([], Exit (Panic "runtime error: index out of range")).
Proof.
  intros Hlt. unfold createStatefulSet.
  destruct (Nat.eqb_spec (length childrenSets) (length isoGroups)) as [|_]; [lia|].
  simpl. rewrite (lookup_ge_None_2 isoGroups (length childrenSets)); [done|lia].
Qed.

(** C5 fails on the code: with one isolation group in the spec and two
    ready child sets the counts differ, the creation branch is taken with
    the index 2 into a list of length 1, and the tick panics. *)
Lemma surplus_children_index_out_of_range :
  handleClusterUpdate Scenario.env_surplus Scenario.m3_one
  = ([StatefulSetList "prod" ∅], Panic "runtime error: index out of range").
Proof. by vm_compute. Qed.

(** ** Return after mutate *)

Ltac counts := rewrite ?count_app; simpl in *; try lia.

Lemma oneThenExit_bind {A B} (p : Call -> bool) (m : M A) (f : A -> M B) :
  oneThenExit p m -> (forall a, oneThenExit p (f a)) -> oneThenExit p (bind m f).
Proof.
  destruct m as [t [a|o]]; simpl; [|done].
  intros Ht Hf. specialize (Hf a). destruct (f a) as [t' [b|o]]; simpl in *;
    rewrite count_app; lia.
Qed.

Lemma oneThenExit_quiet {A} (p : Call -> bool) (m : M A) :
  count p m.1 = 0%nat -> oneThenExit p m.
Proof. destruct m as [t [a|o]]; counts. Qed.

Lemma oneThenExit_call (p : Call -> bool) (c : Call) :
  p c = false -> oneThenExit p (call c).
Proof. intros Hc. simpl. by rewrite Hc. Qed.

Lemma oneThenExit_exit {A} (p : Call -> bool) (o : Outcome) :
  oneThenExit p (@exit A o).
Proof. simpl. counts. Qed.

Lemma oneThenExit_ret {A} (p : Call -> bool) (a : A) : oneThenExit p (ret a).
Proof. done. Qed.

Lemma count_topology (t : list Call) :
  count isTopologyWrite t = (count isGroupWrite t + count isPlacementWrite t)%nat.
Proof.
  induction t as [|c t IH]; [done|].
  rewrite !count_cons, IH. by destruct c.
Qed.

Lemma oneThenExit_return {A} (p : Call -> bool) (err : option error) :
  oneThenExit p (@return_ A err).
Proof. apply oneThenExit_exit. Qed.

Create HintDb ram.
#[local] Hint Resolve oneThenExit_exit oneThenExit_return oneThenExit_ret : ram.

Lemma listChildren_quiet (e : Env) (cluster : M3DBCluster.t) :
  count isMutation (listChildren e cluster).1 = 0%nat.
Proof.
  pose proof (ensureServices_quiet isMutation e cluster (fun _ => eq_refl)) as Hsvc.
  pose proof (getChildStatefulSets_quiet isMutation e 0 cluster
                (fun _ _ => eq_refl) (fun _ => eq_refl)) as Hq.
  rewrite listChildren_cases.
  destruct (ensureServices e cluster) as [t0 [err|]]; simpl in *; [done|].
  destruct (Nat.eqb _ 0); simpl; [done|].
  destruct (getChildStatefulSets e 0 cluster) as [t [sets|err]]; simpl in *;
    rewrite count_app; lia.
Qed.

Lemma topology_is_mutation (t : list Call) :
  count isMutation t = 0%nat -> count isTopologyWrite t = 0%nat.
Proof.
  intros H. pose proof (count_le isTopologyWrite isMutation t) as Hle.
  enough (count isTopologyWrite t <= count isMutation t)%nat by lia.
  apply Hle. intros c. by destruct c.
Qed.

Lemma listChildren_ram (e : Env) (cluster : M3DBCluster.t) :
  oneThenExit isTopologyWrite (listChildren e cluster).
Proof. apply oneThenExit_quiet, topology_is_mutation, listChildren_quiet. Qed.

Lemma readinessGate_ram (sets : list StatefulSet.t) :
  oneThenExit isTopologyWrite (readinessGate sets).
Proof.
  induction sets as [|s sets IH]; [done|]. simpl.
  destruct (StatefulSet.Spec_Replicas s); [|done].
  destruct (negb _); [|done]. simpl. counts.
Qed.

Lemma createStatefulSet_ram (e : Env) (cluster : M3DBCluster.t)
    (isoGroups : list IsolationGroup.t) (childrenSets : list StatefulSet.t) :
  oneThenExit isTopologyWrite (createStatefulSet e cluster isoGroups childrenSets).
Proof.
  unfold createStatefulSet.
  destruct (negb _); [|done].
  destruct (isoGroups !! length childrenSets); [|auto with ram].
  destruct (GenerateStatefulSet _ _ _ _); [|auto with ram].
  destruct (statefulSetCreate e a); simpl; counts.
Qed.

Lemma reconcileNamespaces_quiet (e : Env) (cluster : M3DBCluster.t) :
  count isTopologyWrite (reconcileNamespaces e cluster).1 = 0%nat.
Proof.
  unfold reconcileNamespaces.
  destruct (namespaceList e) as [live|err]; [|done].
  set (declared := map Namespace.Name (M3DBCluster.Spec_Namespaces cluster)).
  pose proof (forEachWrite_quiet isTopologyWrite NamespaceCreate (namespaceCreate e)
                (List.filter (notin live) declared) (fun _ => eq_refl)) as Hc.
  pose proof (forEachWrite_quiet isTopologyWrite NamespaceDelete (namespaceDelete e)
                (List.filter (notin declared) live) (fun _ => eq_refl)) as Hd.
  destruct (forEachWrite NamespaceCreate _ _) as [t [err|]]; simpl in *.
  - done.
  - destruct (forEachWrite NamespaceDelete _ _) as [t' r]. simpl in *.
    rewrite count_app. lia.
Qed.

(** The placement initialisation writes at most once, and never reports
    "not updated" without an error. *)
Lemma validatePlacementWithStatus_cases (e : Env) (cluster : M3DBCluster.t) :
  (count isTopologyWrite (validatePlacementWithStatus e cluster).1 <= 1)%nat
  /\ (validatePlacementWithStatus e cluster).2 <> (false, None).
Proof.
  unfold validatePlacementWithStatus.
  destruct (negb _); [split; [counts|done]|].
  destruct (M3DBCluster.Spec_NumberOfShards cluster <=? 0)%Z; [split; [counts|done]|].
  destruct (podLister_List _ _ _) as [pods|err]; [|split; [counts|done]].
  destruct (placementInit e _); [split; [counts|done]|].
  destruct (clusterStatusUpdate e cluster); split; simpl; try lia; done.
Qed.

Lemma fetchPlacement_ram (e : Env) (cluster : M3DBCluster.t) :
  oneThenExit isTopologyWrite (fetchPlacement e cluster).
Proof.
  unfold fetchPlacement.
  apply oneThenExit_bind.
  { pose proof (reconcileNamespaces_quiet e cluster) as Hq.
    destruct (reconcileNamespaces e cluster) as [t [err|]]; simpl in *; [|done].
    rewrite count_app, Hq. simpl. lia. }
  intros _. apply oneThenExit_bind.
  { destruct (Nat.eqb _ 0); [|done]. simpl. counts. }
  intros _. apply oneThenExit_bind.
  { destruct (negb (HasInitializedPlacement cluster)); [|done].
    destruct (validatePlacementWithStatus_cases e cluster) as [Hle Hne].
    destruct (validatePlacementWithStatus e cluster) as [t [updated err]].
    simpl in *. destruct err as [err|]; simpl.
    - rewrite app_nil_r. lia.
    - destruct updated; [|done]. simpl. counts. }
  intros _. apply oneThenExit_bind.
  { destruct (podLister_List _ _ _); simpl; counts. }
  intros pods. apply oneThenExit_bind.
  { destruct (placementGet e 0); simpl; counts. }
  intros placement. apply oneThenExit_bind; [by apply oneThenExit_call|].
  intros _. destruct (0 <? _)%nat.
  - simpl. counts.
  - apply oneThenExit_bind; [|done].
    pose proof (getChildStatefulSets_quiet isTopologyWrite e 1 cluster
                  (fun _ _ => eq_refl) (fun _ => eq_refl)) as Hq.
    destruct (getChildStatefulSets e 1 cluster) as [t [sets|err]]; simpl in *; lia.
Qed.

Lemma beforeScaling_ram (e : Env) (cluster : M3DBCluster.t) :
  oneThenExit isTopologyWrite (beforeScaling e cluster).
Proof.
  unfold beforeScaling.
  apply oneThenExit_bind; [apply listChildren_ram|]. intros [isoGroups sets].
  apply oneThenExit_bind; [apply readinessGate_ram|]. intros _.
  apply oneThenExit_bind; [apply createStatefulSet_ram|]. intros _.
  apply oneThenExit_bind; [apply fetchPlacement_ram|]. by intros [placement sets'].
Qed.

Lemma expandPlacementForSet_once (e : Env) (cluster : M3DBCluster.t)
    (set : StatefulSet.t) (group : IsolationGroup.t) (pl : Placement.t) :
  (count isTopologyWrite (expandPlacementForSet e cluster set group pl).1 <= 1)%nat.
Proof.
  unfold expandPlacementForSet.
  destruct (podLister_List _ _ _); simpl; counts.
Qed.

Lemma shrinkPlacementForSet_once (e : Env) (cluster : M3DBCluster.t)
    (set : StatefulSet.t) :
  (count isTopologyWrite (shrinkPlacementForSet e cluster set).1 <= 1)%nat.
Proof.
  unfold shrinkPlacementForSet.
  destruct (podLister_List _ _ _); [|counts].
  destruct (highestOrdinal e _); simpl; counts.
Qed.

Lemma scaleSet_ram (e : Env) (cluster : M3DBCluster.t) (placement : Placement.t)
    (set : StatefulSet.t) (group : IsolationGroup.t) :
  oneThenExit isTopologyWrite (scaleSet e cluster placement set group).
Proof.
  unfold scaleSet.
  destruct (StatefulSet.Spec_Replicas set) as [current|]; [|auto with ram].
  destruct (_ && _); [done|].
  destruct (_ && _).
  { pose proof (expandPlacementForSet_once e cluster set group placement).
    unfold return_call. simpl. counts. }
  destruct (_ <? _)%Z.
  { pose proof (shrinkPlacementForSet_once e cluster set).
    unfold return_call. simpl. counts. }
  simpl. destruct (statefulSetUpdate e _) as [updated [err|]]; simpl;
    counts.
Qed.

Lemma scaleSets_ram (e : Env) (cluster : M3DBCluster.t)
    (isoGroups : list IsolationGroup.t) (placement : Placement.t)
    (sets : list StatefulSet.t) :
  oneThenExit isTopologyWrite (scaleSets e cluster isoGroups placement sets).
Proof.
  induction sets as [|set sets IH]; [done|]. simpl.
  destruct (_ !! _); [|auto with ram].
  destruct (GetByName _ _); [|auto with ram].
  apply oneThenExit_bind; [apply scaleSet_ram|done].
Qed.

Lemma finishUpdate_ram (e : Env) (cluster : M3DBCluster.t)
    (isoGroups : list IsolationGroup.t) (sets : list StatefulSet.t) :
  oneThenExit isTopologyWrite (finishUpdate e cluster isoGroups sets).
Proof.
  unfold finishUpdate.
  apply oneThenExit_bind.
  { destruct (placementGet e 1); simpl; counts. }
  intros placement. apply oneThenExit_bind.
  { unfold reconcileBootstrappingStatus.
    destruct (List.filter _ _); [done|].
    destruct (clusterStatusUpdate e cluster); simpl; counts. }
  intros cluster'. simpl. counts.
Qed.

Lemma handleClusterUpdate_body_ram (e : Env) (cluster : M3DBCluster.t) :
  oneThenExit isTopologyWrite (handleClusterUpdate_body e cluster).
Proof.
  unfold handleClusterUpdate_body.
  apply oneThenExit_bind; [apply listChildren_ram|]. intros [isoGroups sets].
  apply oneThenExit_bind; [apply readinessGate_ram|]. intros _.
  apply oneThenExit_bind; [apply createStatefulSet_ram|]. intros _.
  apply oneThenExit_bind; [apply fetchPlacement_ram|]. intros [placement sets'].
  apply oneThenExit_bind; [apply scaleSets_ram|]. intros _.
  apply finishUpdate_ram.
Qed.

Lemma handleClusterUpdate_once (e : Env) (cluster : M3DBCluster.t) :
  (count isTopologyWrite (handleClusterUpdate e cluster).1 <= 1)%nat.
Proof.
  pose proof (handleClusterUpdate_body_ram e cluster) as H.
  unfold handleClusterUpdate.
  by destruct (handleClusterUpdate_body e cluster) as [t [[]|o]].
Qed.

(** ** One topology write per tick *)

(** The claim C2 fails on a tick that finds a declared namespace missing and
    a pod of a full-size group missing from the placement: it creates the
    namespace and then expands the placement, two admin writes. *)
Lemma two_admin_writes_in_one_tick :
  handleClusterEvent Scenario.env_grown "prod/m3"
  = ([ClusterGet "prod" "m3"; StatefulSetList "prod" ∅;
      NamespaceList; NamespaceCreate "metrics";
      PodList "prod" ∅; PlacementGet;
      Log Info "found placement"
        [zap_Int "currentPods" 2; zap_Int "placementInsts" 1];
      StatefulSetList "prod" ∅;
      Log Info "expanding placement for set"
        (setLogger Scenario.set_a_two 1 2 2);
      PodList "prod" {[ Sample.isoKey := "a" ]};
      PlacementAdd ["m3-0-1"]], Return None)
  /\ count isAdminWrite (handleClusterEvent Scenario.env_grown "prod/m3").1 = 2%nat.
Proof. by vm_compute. Qed.

(** C2, amended: a tick issues at most one write among the creation of a
    stateful group, the update of a replica count, and the placement
    writes (init, add, remove): at most one group write, at most one
    placement write, and never both.  Namespace writes are not counted: the
    namespace step issues one per missing or extra namespace and the tick
    goes on after it. *)
Theorem one_topology_write_per_tick (e : Env) (key : string) :
  (count isGroupWrite (handleClusterEvent e key).1
   + count isPlacementWrite (handleClusterEvent e key).1 <= 1)%nat.
Proof.
  rewrite <- count_topology. unfold handleClusterEvent.
  destruct (SplitMetaNamespaceKey key) as [[namespace name]|err]; [|counts].
  destruct (clusterGet e namespace name) as [cluster| | |]; try counts.
  pose proof (handleClusterUpdate_once e cluster) as H.
  destruct (handleClusterUpdate e cluster) as [t o]. counts.
Qed.

(** ** The scaling loop *)

Lemma scaleSets_app (e : Env) (cluster : M3DBCluster.t)
    (isoGroups : list IsolationGroup.t) (placement : Placement.t)
    (pre rest : list StatefulSet.t) :
  scaleSets e cluster isoGroups placement (pre ++ rest)
  = bind (scaleSets e cluster isoGroups placement pre)
      (fun _ => scaleSets e cluster isoGroups placement rest).
Proof.
  induction pre as [|set pre IH]; simpl.
  - by destruct (scaleSets e cluster isoGroups placement rest).
  - destruct (StatefulSet.Labels set !! labels_IsolationGroup e); [|done].
    destruct (GetByName isoGroups _); [|done].
    rewrite IH. symmetry. apply bind_assoc.
Qed.

(** A tick that gets to the loop over the child sets goes on from there. *)
Lemma handleClusterUpdate_at_scaling (e : Env) (cluster : M3DBCluster.t)
    (t0 : list Call) (isoGroups : list IsolationGroup.t) (placement : Placement.t)
    (sets : list StatefulSet.t) :
  beforeScaling e cluster = (t0, Next (isoGroups, placement, sets)) ->
  handleClusterUpdate e cluster
  = run (bind (t0, Next tt)
           (fun _ => bind (scaleSets e cluster isoGroups placement sets)
                       (fun _ => finishUpdate e cluster isoGroups sets))).
Proof.
  unfold beforeScaling, handleClusterUpdate, handleClusterUpdate_body.
  destruct (listChildren e cluster) as [t1 [[iso1 sets1]|o]]; [|done].
  rewrite !bind_Next.
  destruct (readinessGate sets1) as [t2 [[]|o]]; [|done].
  rewrite !bind_Next.
  destruct (createStatefulSet e cluster iso1 sets1) as [t3 [[]|o]]; [|done].
  rewrite !bind_Next.
  destruct (fetchPlacement e cluster) as [t4 [[pl4 sets4]|o]]; [|done].
  rewrite !bind_Next. simpl. rewrite !app_nil_r.
  intros [= <- <- <- <-].
  destruct (bind (scaleSets _ _ _ _ _) _) as [t5 [[]|o]]. simpl.
  by rewrite <- !app_assoc.
Qed.

(** A tick that gets to a set of the loop and leaves the function there. *)
Lemma handleClusterUpdate_at_set (e : Env) (cluster : M3DBCluster.t)
    (t0 t : list Call) (o : Outcome)
    (isoGroups : list IsolationGroup.t) (placement : Placement.t)
    (pre rest : list StatefulSet.t) (set : StatefulSet.t)
    (zone : string) (group : IsolationGroup.t) :
  beforeScaling e cluster = (t0, Next (isoGroups, placement, pre ++ set :: rest)) ->
  scaleSets e cluster isoGroups placement pre = ([], Next tt) ->
  StatefulSet.Labels set !! labels_IsolationGroup e = Some zone ->
  GetByName isoGroups zone = Some group ->
  scaleSet e cluster placement set group = (t, Exit o) ->
  handleClusterUpdate e cluster = (t0 ++ t, o).
Proof.
  intros Hreach Hpre Hzone Hgroup Hset.
  rewrite (handleClusterUpdate_at_scaling _ _ _ _ _ _ Hreach).
  rewrite scaleSets_app, Hpre. simpl. by rewrite Hzone, Hgroup, Hset.
Qed.

Lemma int32_id (z : Z) : int32_range z -> int32 z = z.
Proof.
  unfold int32_range, int32_min, int32_max, int32. intros H.
  rewrite Z.mod_small; lia.
Qed.

Lemma int32_in_range (z : Z) : int32_range (int32 z).
Proof.
  unfold int32_range, int32_min, int32_max, int32.
  pose proof (Z.mod_pos_bound (z + 2 ^ 31) (2 ^ 32)). lia.
Qed.

(** The decision for one set whose replica count is set, case by case. *)
Lemma scaleSet_decision (e : Env) (cluster : M3DBCluster.t)
    (placement : Placement.t) (set : StatefulSet.t) (group : IsolationGroup.t)
    (current : Z) :
  StatefulSet.Spec_Replicas set = Some current ->
  int32_range current ->
  int32_range (IsolationGroup.NumInstances group) ->
  let desired := IsolationGroup.NumInstances group in
  let inPlacement :=
    int32 (Z.of_nat (length (instancesInIsoGroup placement
                               (IsolationGroup.Name group)))) in
  let fields := setLogger set inPlacement current desired in
  let newCount := if (current <? desired)%Z then (current + 1)%Z else (current - 1)%Z in
  let set' := {| StatefulSet.ObjectMeta := StatefulSet.ObjectMeta set;
                 StatefulSet.Spec_Replicas := Some newCount;
                 StatefulSet.Status_ReadyReplicas :=
                   StatefulSet.Status_ReadyReplicas set |} in
  (desired = current -> current = inPlacement ->
   scaleSet e cluster placement set group = ([], Next tt))
  /\ (desired = current -> (inPlacement < current)%Z ->
      scaleSet e cluster placement set group
      = (Log Info "expanding placement for set" fields
           :: (expandPlacementForSet e cluster set group placement).1,
         Exit (Return (expandPlacementForSet e cluster set group placement).2)))
  /\ ((desired < inPlacement)%Z ->
      scaleSet e cluster placement set group
      = (Log Info "remove instance from placement for set" fields
           :: (shrinkPlacementForSet e cluster set).1,
         Exit (Return (shrinkPlacementForSet e cluster set).2)))
  /\ (~ (desired = current /\ (inPlacement <= current)%Z) ->
      (inPlacement <= desired)%Z ->
      scaleSet e cluster placement set group
      = ([Log Info "resizing set, desired != current"
            (fields ++ [zap_Int32 "newSize" newCount]);
          StatefulSetUpdate (StatefulSet.Namespace set) set'],
         Exit (Return
                 match statefulSetUpdate e set' with
                 | (updated, Some err) =>
                     Some ("error updating statefulset " +:+ StatefulSet.Name updated
                           +:+ ": " +:+ err)
                 | (_, None) => None
                 end))).
Proof.
  intros Hreplicas Hcurrent Hdesired desired inPlacement fields newCount set'.
  unfold scaleSet. rewrite Hreplicas.
  fold desired inPlacement fields.
  destruct (Z.eqb_spec desired current) as [Hdc|Hdc];
    destruct (Z.eqb_spec current inPlacement) as [Hci|Hci];
    destruct (Z.ltb_spec inPlacement current) as [Hic|Hic];
    destruct (Z.ltb_spec desired inPlacement) as [Hdi|Hdi];
    simpl; repeat split; intros; try lia; try done.
  all: try (exfalso; apply H; lia).
  all: assert (Hnew : (if (current <? desired)%Z then int32 (current + 1)
                       else int32 (current - 1)) = newCount)
         by (unfold newCount; destruct (Z.ltb_spec current desired);
             apply int32_id; unfold int32_range, int32_min, int32_max in *;
             fold desired in Hdesired; lia).
  all: rewrite Hnew; fold set'; by destruct (statefulSetUpdate e set') as [updated [err|]].
Qed.

(** What the code counts through [instancesInIsoGroup] is the spec's
    [inPlacement]. *)
Lemma instancesInIsoGroup_length (pl : Placement.t) (isoGroup : string) :
  length (instancesInIsoGroup pl isoGroup)
  = spec_inPlacement isoGroup (Placement.Instances pl).
Proof.
  unfold instancesInIsoGroup.
  induction (Placement.Instances pl) as [|inst rest IH]; simpl; [done|].
  destruct (String.eqb_spec (Instance.IsolationGroup inst) isoGroup) as [Heq|Hne];
    destruct (decide (Instance.IsolationGroup inst = isoGroup)); simpl; congruence.
Qed.

(** C1: a tick that gets to the loop over the child sets and, in it, to a
    set whose isolation group is known and whose replica count is set,
    decides as follows, with [desired] the instances of the group,
    [current] the declared replicas of the set and [inPlacement] the number
    of instances of the placement that are in that isolation group (as an
    int32; the instances of other groups do not count): at [desired =
    current = inPlacement] the loop passes over the set without a call; at
    [desired = current] and [inPlacement < current] the tick expands the
    placement for the set and returns what the expansion returns; at
    [inPlacement > desired] it shrinks the placement and returns what the
    shrink returns; otherwise it updates the set to [current + 1] replicas
    when [current < desired], to [current - 1] otherwise, and returns.
    [inPlacement] is the number of instances itself whenever that number
    fits an int32. *)
Theorem scaling_decision_per_group (e : Env) (cluster : M3DBCluster.t)
    (t0 : list Call) (isoGroups : list IsolationGroup.t) (placement : Placement.t)
    (pre rest : list StatefulSet.t) (set : StatefulSet.t)
    (zone : string) (group : IsolationGroup.t) (current : Z) :
  beforeScaling e cluster = (t0, Next (isoGroups, placement, pre ++ set :: rest)) ->
  scaleSets e cluster isoGroups placement pre = ([], Next tt) ->
  StatefulSet.Labels set !! labels_IsolationGroup e = Some zone ->
  GetByName isoGroups zone = Some group ->
  StatefulSet.Spec_Replicas set = Some current ->
  int32_range current ->
  int32_range (IsolationGroup.NumInstances group) ->
  let desired := IsolationGroup.NumInstances group in
  let inGroup :=
    spec_inPlacement (IsolationGroup.Name group) (Placement.Instances placement) in
  let inPlacement := int32 (Z.of_nat inGroup) in
  let fields := setLogger set inPlacement current desired in
  let newCount := if (current <? desired)%Z then (current + 1)%Z else (current - 1)%Z in
  let set' := {| StatefulSet.ObjectMeta := StatefulSet.ObjectMeta set;
                 StatefulSet.Spec_Replicas := Some newCount;
                 StatefulSet.Status_ReadyReplicas :=
                   StatefulSet.Status_ReadyReplicas set |} in
  (desired = current -> current = inPlacement ->
   scaleSets e cluster isoGroups placement (pre ++ [set]) = ([], Next tt))
  /\ (desired = current -> (inPlacement < current)%Z ->
      handleClusterUpdate e cluster
      = (t0 ++ Log Info "expanding placement for set" fields
           :: (expandPlacementForSet e cluster set group placement).1,
         Return (expandPlacementForSet e cluster set group placement).2))
  /\ ((inPlacement > desired)%Z ->
      handleClusterUpdate e cluster
      = (t0 ++ Log Info "remove instance from placement for set" fields
           :: (shrinkPlacementForSet e cluster set).1,
         Return (shrinkPlacementForSet e cluster set).2))
  /\ (~ (desired = current /\ (inPlacement <= current)%Z) ->
      ~ (inPlacement > desired)%Z ->
      handleClusterUpdate e cluster
      = (t0 ++ [Log Info "resizing set, desired != current"
                  (fields ++ [zap_Int32 "newSize" newCount]);
                StatefulSetUpdate (StatefulSet.Namespace set) set'],
         Return
           match statefulSetUpdate e set' with
           | (updated, Some err) =>
               Some ("error updating statefulset " +:+ StatefulSet.Name updated
                     +:+ ": " +:+ err)
           | (_, None) => None
           end))
  /\ ((Z.of_nat inGroup <= int32_max)%Z -> inPlacement = Z.of_nat inGroup).
Proof.
  intros Hreach Hpre Hzone Hgroup Hreplicas Hcurrent Hdesired
    desired inGroup inPlacement fields newCount set'.
  pose proof (scaleSet_decision e cluster placement set group current
                Hreplicas Hcurrent Hdesired) as Hdecision.
  simpl in Hdecision.
  rewrite (instancesInIsoGroup_length placement (IsolationGroup.Name group))
    in Hdecision.
  fold inGroup inPlacement fields newCount set' in Hdecision.
  destruct Hdecision as (Hskip & Hexpand & Hshrink & Hresize).
  repeat split.
  - intros Hdc Hci. rewrite scaleSets_app, Hpre. simpl.
    by rewrite Hzone, Hgroup, (Hskip Hdc Hci).
  - intros Hdc Hic.
    apply (handleClusterUpdate_at_set _ _ _ _ _ _ _ _ _ _ _ _
             Hreach Hpre Hzone Hgroup (Hexpand Hdc Hic)).
  - intros Hid.
    assert (Hdi : (desired < inPlacement)%Z) by lia.
    apply (handleClusterUpdate_at_set _ _ _ _ _ _ _ _ _ _ _ _
             Hreach Hpre Hzone Hgroup (Hshrink Hdi)).
  - intros Hnot Hle.
    assert (Hid : (inPlacement <= desired)%Z) by lia.
    apply (handleClusterUpdate_at_set _ _ _ _ _ _ _ _ _ _ _ _
             Hreach Hpre Hzone Hgroup (Hresize Hnot Hid)).
  - intros Hfits. apply int32_id.
    unfold int32_range, int32_min, int32_max in *. lia.
Qed.

Lemma scaling_decision_per_group_witness :
  length (Placement.Instances Cases.placement_short) = 2%nat
  /\ spec_inPlacement "a" (Placement.Instances Cases.placement_short) = 1%nat
  /\ handleClusterUpdate Cases.env_short Cases.m3_ab
     = ([StatefulSetList "prod" ∅; NamespaceList; PodList "prod" ∅; PlacementGet;
         Log Info "found placement"
           [zap_Int "currentPods" 3; zap_Int "placementInsts" 2];
         StatefulSetList "prod" ∅]
          ++ Log Info "expanding placement for set" (setLogger Scenario.set_a_two 1 2 2)
          :: (expandPlacementForSet Cases.env_short Cases.m3_ab
                Scenario.set_a_two (Sample.group "a" 2) Cases.placement_short).1,
        Return (expandPlacementForSet Cases.env_short Cases.m3_ab
                  Scenario.set_a_two (Sample.group "a" 2) Cases.placement_short).2).
Proof.
  assert (Hrange : int32_range 2)
    by (unfold int32_range, int32_min, int32_max; lia).
  assert (Hlt : (1 < 2)%Z) by lia.
  split; [reflexivity|]. split; [reflexivity|].
  exact (proj1 (proj2
           (scaling_decision_per_group Cases.env_short Cases.m3_ab
              _ [Sample.group "a" 2; Sample.group "b" 1] Cases.placement_short
              [] [Scenario.set_b_ready] Scenario.set_a_two "a" (Sample.group "a" 2) 2%Z
              eq_refl eq_refl eq_refl eq_refl eq_refl Hrange Hrange))
           eq_refl Hlt).
Defined.

(** C9: the readiness gate lets the tick go on exactly when every child set
    whose declared replica count is set has that many ready replicas, so a
    set with an unset count never makes it wait; and a tick that gets, in
    the loop over the child sets, to a set of a known isolation group with an
    unset count returns the error "set <name> has unset spec replica",
    having issued no group write (create, resize) and no placement write. *)
Theorem unset_replicas_pass_the_gate (e : Env) (cluster : M3DBCluster.t) :
  (forall sets,
     readinessGate sets = ([], Next tt) <->
     forall s declared,
       In s sets -> StatefulSet.Spec_Replicas s = Some declared ->
       declared = StatefulSet.Status_ReadyReplicas s)
  /\ (forall t0 isoGroups placement pre set rest zone group,
        beforeScaling e cluster
        = (t0, Next (isoGroups, placement, pre ++ set :: rest)) ->
        scaleSets e cluster isoGroups placement pre = ([], Next tt) ->
        StatefulSet.Labels set !! labels_IsolationGroup e = Some zone ->
        GetByName isoGroups zone = Some group ->
        StatefulSet.Spec_Replicas set = None ->
        handleClusterUpdate e cluster
        = (t0, Return (Some ("set " +:+ StatefulSet.Name set
                             +:+ " has unset spec replica")))
        /\ count isGroupWrite t0 = 0%nat
        /\ count isPlacementWrite t0 = 0%nat).
Proof.
  split.
  - intros sets. split.
    + intros Hgate s declared Hin Hdeclared.
      destruct (Z.eq_dec declared (StatefulSet.Status_ReadyReplicas s)) as [|Hne];
        [done|].
      destruct (readinessGate_unready sets) as (s' & _ & _ & Hwait).
      { exists s. split; [done|]. unfold unready. rewrite Hdeclared.
        apply negb_true_iff. by apply Z.eqb_neq. }
      congruence.
    + intros Hready. apply readinessGate_ready. intros s Hin. unfold unready.
      destruct (StatefulSet.Spec_Replicas s) as [declared|] eqn:Hdeclared; [|done].
      apply negb_false_iff, Z.eqb_eq. by apply Hready.
  - intros t0 isoGroups placement pre set rest zone group
      Hreach Hpre Hzone Hgroup Hunset.
    split.
    + rewrite <- (app_nil_r t0).
      apply (handleClusterUpdate_at_set _ _ _ _ _ _ _ _ _ _ _ _
               Hreach Hpre Hzone Hgroup).
      unfold scaleSet. by rewrite Hunset.
    + pose proof (beforeScaling_ram e cluster) as Hram.
      rewrite Hreach in Hram. simpl in Hram.
      rewrite count_topology in Hram. lia.
Qed.

Lemma unset_replicas_pass_the_gate_witness :
  readinessGate [Scenario.set_a_unset] = ([], Next tt)
  /\ handleClusterUpdate Scenario.env_unset Scenario.m3_live
     = ([StatefulSetList "prod" ∅; NamespaceList; PodList "prod" ∅; PlacementGet;
         Log Info "found placement"
           [zap_Int "currentPods" 0; zap_Int "placementInsts" 1];
         StatefulSetList "prod" ∅],
        Return (Some "set m3-0 has unset spec replica")).
Proof.
  destruct (unset_replicas_pass_the_gate Scenario.env_unset Scenario.m3_live)
    as [Hgate Hloop].
  split.
  - apply Hgate. intros s declared [<-|[]]. discriminate.
  - exact (proj1 (Hloop _ [Sample.group "a" 1]
                    {| Placement.Instances := [Sample.instance "m3-0-0" "a"] |}
                    [] Scenario.set_a_unset [] "a" (Sample.group "a" 1)
                    eq_refl eq_refl eq_refl eq_refl eq_refl)).
Defined.

(** ** Group creation, tick after tick *)



Lemma insert_group_Sorted (g : IsolationGroup.t) (l : list IsolationGroup.t) :
  Sorted name_le l -> Sorted name_le (insert_group g l).
Proof.
  induction 1 as [|h l Hl IH Hh]; simpl; [by repeat constructor|].
  destruct (String.leb (IsolationGroup.Name g) (IsolationGroup.Name h)) eqn:Hgh.
  - by repeat constructor.
  - constructor; [done|].
    assert (Hhg : name_le h g).
    { unfold name_le. destruct (String.leb_total (IsolationGroup.Name h)
                                  (IsolationGroup.Name g)); congruence. }
    destruct Hh as [|k l' Hk]; simpl; [by constructor|].
    destruct (String.leb (IsolationGroup.Name g) (IsolationGroup.Name k));
      by constructor.
Qed.

(** The model of [sort.Sort] does sort by name. *)
Lemma sortIsolationGroups_Sorted (l : list IsolationGroup.t) :
  Sorted name_le (sortIsolationGroups l).
Proof.
  induction l as [|g l IH]; simpl; [constructor|]. by apply insert_group_Sorted.
Qed.























(** ** What a tick calls *)

Lemma Forall_bind {A B} (P : Call -> Prop) (m : M A) (f : A -> M B) :
  Forall P m.1 -> (forall a, Forall P (f a).1) -> Forall P (bind m f).1.
Proof.
  destruct m as [t [a|o]]; simpl; [|done].
  intros Ht Hf. specialize (Hf a). destruct (f a) as [t' r]. simpl in *.
  by apply Forall_app.
Qed.

Lemma Forall_count_0 (allowed p : Call -> bool) (t : list Call) :
  Forall (fun c => allowed c = true) t ->
  (forall c, allowed c = true -> p c = false) ->
  count p t = 0%nat.
Proof.
  intros Ht Hp. apply count_Forall_false.
  eapply Forall_impl; [exact Ht|]. intros c. apply Hp.
Qed.

Lemma forEachWrite_calls (allowed : Call -> bool) (mk : string -> Call)
    (answer : string -> option error) (names : list string) :
  (forall n, allowed (mk n) = true) ->
  Forall (fun c => allowed c = true) (forEachWrite mk answer names).1.
Proof.
  intros Hmk. eapply Forall_impl; [apply forEachWrite_Forall|].
  intros c [n ->]. apply Hmk.
Qed.

(** Goals [Forall _ t] over a trace that is written out. *)
Ltac calls :=
  simpl;
  repeat first [ assumption
               | apply List.Forall_nil
               | apply List.Forall_cons; [reflexivity|]
               | apply Forall_app; split ].

Lemma getChildStatefulSets_calls (e : Env) (read : nat) (cluster : M3DBCluster.t) :
  Forall (fun c => beforeLoopCall c = true) (getChildStatefulSets e read cluster).1.
Proof.
  unfold getChildStatefulSets. destruct (statefulSetLister_List _ _ _ _); calls.
Qed.

Lemma listChildren_calls (e : Env) (cluster : M3DBCluster.t) :
  Forall (fun c => beforeLoopCall c = true) (listChildren e cluster).1.
Proof.
  pose proof (forEachWrite_calls beforeLoopCall ServiceCreate (serviceCreate e)
                (absentServices e cluster) (fun _ => eq_refl)) as Hsvc.
  pose proof (getChildStatefulSets_calls e 0 cluster) as Hlist.
  rewrite listChildren_cases. fold (ensureServices e cluster) in Hsvc.
  destruct (ensureServices e cluster) as [t0 [err|]]; simpl in *; [done|].
  destruct (Nat.eqb _ 0); simpl; [done|].
  destruct (getChildStatefulSets e 0 cluster) as [t [sets|err]]; calls.
Qed.

Lemma readinessGate_calls (sets : list StatefulSet.t) :
  Forall (fun c => beforeLoopCall c = true) (readinessGate sets).1.
Proof.
  induction sets as [|s sets IH]; [calls|]. simpl.
  destruct (StatefulSet.Spec_Replicas s); [|done]. destruct (negb _); [calls|done].
Qed.

Lemma createStatefulSet_calls (e : Env) (cluster : M3DBCluster.t)
    (isoGroups : list IsolationGroup.t) (sets : list StatefulSet.t) :
  Forall (fun c => beforeLoopCall c = true)
    (createStatefulSet e cluster isoGroups sets).1.
Proof.
  unfold createStatefulSet. destruct (negb _); [|calls].
  destruct (isoGroups !! length sets); [|calls].
  destruct (GenerateStatefulSet _ _ _ _) as [sts|err]; [|calls].
  destruct (statefulSetCreate e sts); calls.
Qed.

Lemma reconcileNamespaces_calls (e : Env) (cluster : M3DBCluster.t) :
  Forall (fun c => beforeLoopCall c = true) (reconcileNamespaces e cluster).1.
Proof.
  unfold reconcileNamespaces.
  destruct (namespaceList e) as [live|err]; [|calls].
  set (declared := map Namespace.Name (M3DBCluster.Spec_Namespaces cluster)).
  pose proof (forEachWrite_calls beforeLoopCall NamespaceCreate (namespaceCreate e)
                (List.filter (notin live) declared) (fun _ => eq_refl)) as Hc.
  pose proof (forEachWrite_calls beforeLoopCall NamespaceDelete (namespaceDelete e)
                (List.filter (notin declared) live) (fun _ => eq_refl)) as Hd.
  destruct (forEachWrite NamespaceCreate _ _) as [t [err|]]; simpl in *; [calls|].
  destruct (forEachWrite NamespaceDelete _ _) as [t' r]; simpl in *. calls.
Qed.

Lemma validatePlacementWithStatus_calls (e : Env) (cluster : M3DBCluster.t) :
  Forall (fun c => beforeLoopCall c = true) (validatePlacementWithStatus e cluster).1.
Proof.
  unfold validatePlacementWithStatus.
  destruct (negb _); [calls|].
  destruct (M3DBCluster.Spec_NumberOfShards cluster <=? 0)%Z; [calls|].
  destruct (podLister_List _ _ _) as [pods|err]; [|calls].
  destruct (placementInit e _); [calls|].
  destruct (clusterStatusUpdate e cluster); calls.
Qed.

Lemma fetchPlacement_calls (e : Env) (cluster : M3DBCluster.t) :
  Forall (fun c => beforeLoopCall c = true) (fetchPlacement e cluster).1.
Proof.
  unfold fetchPlacement. apply Forall_bind.
  { pose proof (reconcileNamespaces_calls e cluster) as Hns.
    destruct (reconcileNamespaces e cluster) as [t [err|]]; simpl in *; calls. }
  intros _. apply Forall_bind; [destruct (Nat.eqb _ 0); calls|].
  intros _. apply Forall_bind.
  { destruct (negb (HasInitializedPlacement cluster)); [|calls].
    pose proof (validatePlacementWithStatus_calls e cluster) as Hv.
    destruct (validatePlacementWithStatus e cluster) as [t [updated err]].
    simpl in *. destruct err as [err|]; [calls|]. destruct updated; calls. }
  intros _. apply Forall_bind; [destruct (podLister_List _ _ _); calls|].
  intros pods. apply Forall_bind; [destruct (placementGet e 0); calls|].
  intros placement. apply Forall_bind; [calls|].
  intros _. destruct (0 <? _)%nat; [calls|].
  apply Forall_bind; [|intros sets; calls].
  pose proof (getChildStatefulSets_calls e 1 cluster) as Hlist.
  destruct (getChildStatefulSets e 1 cluster) as [t [sets|err]]; calls.
Qed.

Lemma beforeScaling_calls (e : Env) (cluster : M3DBCluster.t) :
  Forall (fun c => beforeLoopCall c = true) (beforeScaling e cluster).1.
Proof.
  unfold beforeScaling.
  apply Forall_bind; [apply listChildren_calls|]. intros [isoGroups sets].
  apply Forall_bind; [apply readinessGate_calls|]. intros _.
  apply Forall_bind; [apply createStatefulSet_calls|]. intros _.
  apply Forall_bind; [apply fetchPlacement_calls|]. intros [placement sets']. calls.
Qed.

Lemma scaleSet_calls (e : Env) (cluster : M3DBCluster.t) (placement : Placement.t)
    (set : StatefulSet.t) (group : IsolationGroup.t) :
  Forall (fun c => loopCall c = true) (scaleSet e cluster placement set group).1.
Proof.
  unfold scaleSet.
  destruct (StatefulSet.Spec_Replicas set) as [current|]; [|calls].
  destruct (_ && _); [calls|].
  destruct (_ && _).
  { unfold return_call, expandPlacementForSet.
    destruct (podLister_List _ _ _); calls. }
  destruct (_ <? _)%Z.
  { unfold return_call, shrinkPlacementForSet.
    destruct (podLister_List _ _ _); [|calls].
    destruct (highestOrdinal e _); calls. }
  simpl. destruct (statefulSetUpdate e _) as [updated [err|]]; calls.
Qed.

Lemma scaleSets_calls (e : Env) (cluster : M3DBCluster.t)
    (isoGroups : list IsolationGroup.t) (placement : Placement.t)
    (sets : list StatefulSet.t) :
  Forall (fun c => loopCall c = true)
    (scaleSets e cluster isoGroups placement sets).1.
Proof.
  induction sets as [|set sets IH]; [calls|]. simpl.
  destruct (_ !! _); [|calls].
  destruct (GetByName _ _); [|calls].
  apply Forall_bind; [apply scaleSet_calls|done].
Qed.

Lemma finishUpdate_calls (e : Env) (cluster : M3DBCluster.t)
    (isoGroups : list IsolationGroup.t) (sets : list StatefulSet.t) :
  Forall (fun c => finishCall c = true) (finishUpdate e cluster isoGroups sets).1.
Proof.
  unfold finishUpdate.
  apply Forall_bind; [destruct (placementGet e 1); calls|].
  intros placement. apply Forall_bind; [|intros cluster'; calls].
  unfold reconcileBootstrappingStatus.
  destruct (List.filter _ _); [calls|].
  destruct (clusterStatusUpdate e cluster); calls.
Qed.

(** A tick that leaves the function before the loop over the child sets. *)
Lemma handleClusterUpdate_before_scaling (e : Env) (cluster : M3DBCluster.t)
    (t0 : list Call) (o : Outcome) :
  beforeScaling e cluster = (t0, Exit o) -> handleClusterUpdate e cluster = (t0, o).
Proof.
  unfold beforeScaling, handleClusterUpdate, handleClusterUpdate_body.
  destruct (listChildren e cluster) as [t1 [[iso1 sets1]|o1]];
    [|by intros [= <- <-]].
  rewrite !bind_Next.
  destruct (readinessGate sets1) as [t2 [[]|o2]]; [|by intros [= <- <-]].
  rewrite !bind_Next.
  destruct (createStatefulSet e cluster iso1 sets1) as [t3 [[]|o3]];
    [|by intros [= <- <-]].
  rewrite !bind_Next.
  destruct (fetchPlacement e cluster) as [t4 [[pl4 sets4]|o4]];
    [done|by intros [= <- <-]].
Qed.

(** The trace and the result of a tick, phase by phase. *)
Lemma handleClusterUpdate_phases (e : Env) (cluster : M3DBCluster.t) :
  (exists t0 o,
     beforeScaling e cluster = (t0, Exit o)
     /\ handleClusterUpdate e cluster = (t0, o))
  \/ (exists t0 isoGroups placement sets t1 o,
        beforeScaling e cluster = (t0, Next (isoGroups, placement, sets))
        /\ scaleSets e cluster isoGroups placement sets = (t1, Exit o)
        /\ handleClusterUpdate e cluster = (t0 ++ t1, o))
  \/ (exists t0 isoGroups placement sets t1 t2 o,
        beforeScaling e cluster = (t0, Next (isoGroups, placement, sets))
        /\ scaleSets e cluster isoGroups placement sets = (t1, Next tt)
        /\ finishUpdate e cluster isoGroups sets = (t2, Exit o)
        /\ handleClusterUpdate e cluster = (t0 ++ t1 ++ t2, o)).
Proof.
  destruct (beforeScaling e cluster) as [t0 [[[isoGroups placement] sets]|o]] eqn:Hb.
  - rewrite (handleClusterUpdate_at_scaling _ _ _ _ _ _ Hb).
    destruct (scaleSets e cluster isoGroups placement sets) as [t1 [[]|o]] eqn:Hs.
    + destruct (finishUpdate e cluster isoGroups sets) as [t2 [[]|o]] eqn:Hf.
      right. right. exists t0, isoGroups, placement, sets, t1, t2, o.
      repeat split; done.
    + right. left. by exists t0, isoGroups, placement, sets, t1, o.
  - left. exists t0, o. split; [done|]. by apply handleClusterUpdate_before_scaling.
Qed.

Lemma handleClusterUpdate_calls (e : Env) (cluster : M3DBCluster.t) :
  Forall (fun c => isClusterTickCall c = true) (handleClusterUpdate e cluster).1.
Proof.
  { pose proof (beforeScaling_calls e cluster) as Hb.
    assert (Hbefore : forall c, beforeLoopCall c = true -> isClusterTickCall c = true)
      by (intros c Hc; unfold isClusterTickCall; by rewrite Hc).
    assert (Hloop : forall c, loopCall c = true -> isClusterTickCall c = true)
      by (intros c Hc; unfold isClusterTickCall; rewrite Hc; by destruct (beforeLoopCall c)).
    assert (Hfinish : forall c, finishCall c = true -> isClusterTickCall c = true)
      by (intros c Hc; unfold isClusterTickCall; rewrite Hc;
          by destruct (beforeLoopCall c), (loopCall c)).
    destruct (handleClusterUpdate_phases e cluster)
      as [(t0 & o & Hb' & ->)
         |[(t0 & iso & pl & sets & t1 & o & Hb' & Hs & ->)
          |(t0 & iso & pl & sets & t1 & t2 & o & Hb' & Hs & Hf & ->)]];
      rewrite Hb' in Hb; simpl in *.
    - by eapply Forall_impl.
    - pose proof (scaleSets_calls e cluster iso pl sets) as Hl. rewrite Hs in Hl.
      apply Forall_app. split; by eapply Forall_impl.
    - pose proof (scaleSets_calls e cluster iso pl sets) as Hl. rewrite Hs in Hl.
      pose proof (finishUpdate_calls e cluster iso sets) as Hfin. rewrite Hf in Hfin.
      repeat (apply Forall_app; split); by eapply Forall_impl. }
Qed.

(** X1: a tick of the cluster handler issues only calls of the cluster
    state machine: it never updates or looks up a pod, never computes a pod
    identity, never looks up a cluster and never touches a work queue. *)
Theorem cluster_tick_stays_in_its_lane (e : Env) (cluster : M3DBCluster.t) :
  Forall (fun c => isClusterTickCall c = true) (handleClusterUpdate e cluster).1
  /\ count isPodUpdate (handleClusterUpdate e cluster).1 = 0%nat
  /\ count isQueueCall (handleClusterUpdate e cluster).1 = 0%nat.
Proof.
  pose proof (handleClusterUpdate_calls e cluster) as Hall.
  split; [done|].
  split; eapply Forall_count_0; try exact Hall; intros c; by destruct c.
Qed.

Lemma unavailable_is_counted (l : list Instance.t) (inst : Instance.t) :
  In inst l -> Instance.IsAvailable inst = false ->
  (0 <? length (map Instance.ID
                  (List.filter (fun i => negb (Instance.IsAvailable i)) l)))%nat = true.
Proof.
  intros Hin Hun. apply Nat.ltb_lt. rewrite length_map.
  assert (Hf : In inst (List.filter (fun i => negb (Instance.IsAvailable i)) l)).
  { apply filter_In. by rewrite Hun. }
  destruct (List.filter _ l); [done|simpl; lia].
Qed.

Lemma fetchPlacement_unavailable (e : Env) (cluster : M3DBCluster.t)
    (placement : Placement.t) (inst : Instance.t) :
  placementGet e 0%nat = Ok placement ->
  In inst (Placement.Instances placement) ->
  Instance.IsAvailable inst = false ->
  exists t o, fetchPlacement e cluster = (t, Exit o).
Proof.
  intros Hget Hin Hun. unfold fetchPlacement.
  destruct (reconcileNamespaces e cluster) as [t1 [err|]]; simpl; [by eauto|].
  destruct (Nat.eqb _ 0); simpl.
  all: destruct (negb (HasInitializedPlacement cluster)); simpl.
  all: try (destruct (validatePlacementWithStatus e cluster) as [tv [updated [err|]]];
            simpl; [by eauto|]; destruct updated; simpl; [by eauto|]).
  all: destruct (podLister_List _ _ _); simpl; [|by eauto].
  all: rewrite Hget; simpl.
  all: rewrite (unavailable_is_counted _ _ Hin Hun); simpl; by eauto.
Qed.

(** X2: while the live placement holds an instance that is not available, a
    tick issues no write of the scaling loop: no replica count is updated
    and the placement is neither expanded nor shrunk. *)
Theorem unavailable_instance_blocks_scaling (e : Env) (cluster : M3DBCluster.t)
    (placement : Placement.t) (inst : Instance.t) :
  placementGet e 0%nat = Ok placement ->
  In inst (Placement.Instances placement) ->
  Instance.IsAvailable inst = false ->
  count isScalingWrite (handleClusterUpdate e cluster).1 = 0%nat.
Proof.
  intros Hget Hin Hun.
  destruct (fetchPlacement_unavailable e cluster placement inst Hget Hin Hun)
    as (t & o & Hfetch).
  assert (Hexit : exists t0 o0, beforeScaling e cluster = (t0, Exit o0)).
  { unfold beforeScaling.
    destruct (listChildren e cluster) as [t1 [[iso1 sets1]|o1]]; [|by eauto].
    rewrite bind_Next.
    destruct (readinessGate sets1) as [t2 [[]|o2]]; [|by eauto].
    rewrite bind_Next.
    destruct (createStatefulSet e cluster iso1 sets1) as [t3 [[]|o3]]; [|by eauto].
    rewrite bind_Next, Hfetch. simpl. by eauto. }
  destruct Hexit as (t0 & o0 & Hb).
  rewrite (handleClusterUpdate_before_scaling _ _ _ _ Hb). simpl.
  pose proof (beforeScaling_calls e cluster) as Hcalls. rewrite Hb in Hcalls.
  eapply Forall_count_0; [exact Hcalls|]. intros c; by destruct c.
Qed.

Lemma unavailable_instance_blocks_scaling_witness :
  count isScalingWrite
    (handleClusterUpdate Cases.env_initializing Scenario.m3_grown).1 = 0%nat.
Proof.
  exact (unavailable_instance_blocks_scaling Cases.env_initializing Scenario.m3_grown
           {| Placement.Instances :=
                [Sample.instance "m3-0-0" "a"; Cases.initializing] |}
           Cases.initializing eq_refl (or_intror (or_introl eq_refl)) eq_refl).
Defined.

Lemma finishUpdate_synced (e : Env) (cluster : M3DBCluster.t)
    (isoGroups : list IsolationGroup.t) (sets : list StatefulSet.t)
    (t : list Call) (o : Outcome) :
  finishUpdate e cluster isoGroups sets = (t, Exit o) ->
  (0 < count isNormalEvent t)%nat -> o = Return None.
Proof.
  unfold finishUpdate.
  destruct (placementGet e 1) as [pl|err]; simpl; [|intros [= <- <-]; simpl; lia].
  unfold reconcileBootstrappingStatus.
  destruct (List.filter _ _); simpl; [by intros [= <- <-]|].
  destruct (clusterStatusUpdate e cluster); simpl; intros [= <- <-]; simpl;
    [lia|done].
Qed.

(** X3: a tick records the event "cluster updated and synced" only when it
    returns nil and has issued no group write and no placement write. *)
Theorem synced_event_means_nothing_written (e : Env) (cluster : M3DBCluster.t) :
  (0 < count isNormalEvent (handleClusterUpdate e cluster).1)%nat ->
  (handleClusterUpdate e cluster).2 = Return None
  /\ count isGroupWrite (handleClusterUpdate e cluster).1 = 0%nat
  /\ count isPlacementWrite (handleClusterUpdate e cluster).1 = 0%nat.
Proof.
  pose proof (beforeScaling_calls e cluster) as Hb.
  pose proof (beforeScaling_ram e cluster) as Hram.
  assert (Hquiet0 : forall c, beforeLoopCall c = true -> isNormalEvent c = false)
    by (intros c; by destruct c).
  assert (Hquiet1 : forall c, loopCall c = true -> isNormalEvent c = false)
    by (intros c; by destruct c).
  destruct (handleClusterUpdate_phases e cluster)
    as [(t0 & o & Hb' & ->)
       |[(t0 & iso & pl & sets & t1 & o & Hb' & Hs & ->)
        |(t0 & iso & pl & sets & t1 & t2 & o & Hb' & Hs & Hf & ->)]];
    rewrite Hb' in Hb, Hram; simpl in *.
  - rewrite (Forall_count_0 _ _ _ Hb Hquiet0). lia.
  - pose proof (scaleSets_calls e cluster iso pl sets) as Hl. rewrite Hs in Hl.
    simpl in Hl.
    rewrite count_app, (Forall_count_0 _ _ _ Hb Hquiet0),
      (Forall_count_0 _ _ _ Hl Hquiet1). simpl. lia.
  - pose proof (scaleSets_calls e cluster iso pl sets) as Hl. rewrite Hs in Hl.
    pose proof (scaleSets_ram e cluster iso pl sets) as Hram1. rewrite Hs in Hram1.
    pose proof (finishUpdate_calls e cluster iso sets) as Hfin. rewrite Hf in Hfin.
    simpl in *.
    rewrite !count_app, (Forall_count_0 _ _ _ Hb Hquiet0),
      (Forall_count_0 _ _ _ Hl Hquiet1). simpl. intros Hsynced.
    split; [by eapply finishUpdate_synced|].
    assert (Htopo : count isTopologyWrite (t0 ++ t1 ++ t2) = 0%nat).
    { rewrite !count_app, Hram, Hram1. simpl.
      eapply Forall_count_0; [exact Hfin|]. intros c; by destruct c. }
    rewrite count_topology, !count_app in Htopo. lia.
Qed.

Lemma synced_event_means_nothing_written_witness :
  (handleClusterUpdate Cases.env_converged Scenario.m3_live).2 = Return None
  /\ count isGroupWrite (handleClusterUpdate Cases.env_converged Scenario.m3_live).1
     = 0%nat
  /\ count isPlacementWrite (handleClusterUpdate Cases.env_converged Scenario.m3_live).1
     = 0%nat.
Proof.
  apply (synced_event_means_nothing_written Cases.env_converged Scenario.m3_live).
  vm_compute. lia.
Defined.

(** ** The pod handler: what it writes *)

(** All the paths of [handlePodUpdate]. *)
Ltac pod_paths e pod :=
  unfold handlePodUpdate, handlePodUpdate_body, getParentCluster, getClusterValue,
    call, return_, exit, ret;
  destruct (Pod.Labels pod !! labels_Cluster e) as [clusterName|] eqn:Hlabel; simpl;
  [ destruct (clusterGet e (Pod.Namespace pod) clusterName) as [cluster| |err|err]
      eqn:Hcluster; simpl;
    [ destruct (podIdentity e pod (Some cluster)) as [id|err] eqn:Hid; simpl;
      [ destruct (identityJSON e id) as [idStr|err] eqn:Hjson; simpl;
        [ destruct (Pod.Annotations pod !! AnnotationKeyPodIdentity e)
            as [currentID|] eqn:Hann; simpl;
          [ destruct (String.eqb currentID idStr); simpl
          | destruct (podUpdate e (withAnnotation pod (AnnotationKeyPodIdentity e) idStr))
              as [err|] eqn:Hupdate; simpl ]
        | ]
      | ]
    | destruct (podIdentity e pod None) as [id|err] eqn:Hid; simpl;
      [ destruct (identityJSON e id) as [idStr|err] eqn:Hjson; simpl;
        [ destruct (Pod.Annotations pod !! AnnotationKeyPodIdentity e)
            as [currentID|] eqn:Hann; simpl;
          [ destruct (String.eqb currentID idStr); simpl
          | destruct (podUpdate e (withAnnotation pod (AnnotationKeyPodIdentity e) idStr))
              as [err|] eqn:Hupdate; simpl ]
        | ]
      | ]
    | | ]
  | ].

Lemma handlePodUpdate_calls (e : Env) (pod : Pod.t) :
  Forall (fun c => isPodTickCall c = true) (handlePodUpdate e pod).1
  /\ (count isPodUpdate (handlePodUpdate e pod).1 <= 1)%nat.
Proof. pod_paths e pod; (split; [calls|lia]). Qed.

(** The stored pod after the handler ran: as before, or with the identity
    annotation set on a pod that had none. *)
Lemma podAfter_cases (e : Env) (pod : Pod.t) :
  podAfter e pod = pod
  \/ (Pod.Annotations pod !! AnnotationKeyPodIdentity e = None
      /\ exists idStr,
           podAfter e pod = withAnnotation pod (AnnotationKeyPodIdentity e) idStr).
Proof.
  unfold podAfter. pod_paths e pod; try (by left).
  all: unfold applyPodCall; simpl; rewrite ?Hupdate; try (by left).
  all: right; split; [done|]; by eexists.
Qed.

(** X4: whatever the environment answers, the pod handler changes nothing
    of the stored pod but the identity annotation, which it only sets when
    absent; and running it again on the pod it left changes nothing more. *)
Theorem pod_handler_only_sets_identity (e : Env) (pod : Pod.t) :
  Pod.Name (podAfter e pod) = Pod.Name pod
  /\ Pod.Namespace (podAfter e pod) = Pod.Namespace pod
  /\ Pod.Labels (podAfter e pod) = Pod.Labels pod
  /\ ObjectMeta.OwnerReferences (Pod.ObjectMeta (podAfter e pod))
     = ObjectMeta.OwnerReferences (Pod.ObjectMeta pod)
  /\ (forall key, key <> AnnotationKeyPodIdentity e ->
        Pod.Annotations (podAfter e pod) !! key = Pod.Annotations pod !! key)
  /\ (forall id, Pod.Annotations pod !! AnnotationKeyPodIdentity e = Some id ->
        Pod.Annotations (podAfter e pod) !! AnnotationKeyPodIdentity e = Some id)
  /\ podAfter e (podAfter e pod) = podAfter e pod.
Proof.
  destruct (podAfter_cases e pod) as [Heq|(Hnone & idStr & ->)].
  - rewrite !Heq. repeat split; done.
  - repeat split; try done.
    + intros key Hkey. unfold Pod.Annotations, withAnnotation. simpl.
      by apply lookup_insert_ne.
    + intros id Hid. congruence.
    + apply fold_applyPodCall_quiet. eapply handlePodUpdate_annotated.
      unfold Pod.Annotations, withAnnotation. simpl. apply lookup_insert_eq.
Qed.

(** X5: the pod handler issues at most one pod update, and only for a member
    pod without identity annotation whose parent cluster was found and whose
    identity was computed and serialized.  The update is made in the pod's
    namespace, and the pod it sends has the serialized identity as the value
    of its identity annotation and is the handled pod in everything else:
    name, namespace, UID, labels, owner references and every other
    annotation. *)
Theorem pod_update_carries_identity (e : Env) (pod : Pod.t) :
  (count isPodUpdate (handlePodUpdate e pod).1 <= 1)%nat
  /\ forall namespace updated,
       In (PodUpdate namespace updated) (handlePodUpdate e pod).1 ->
       namespace = Pod.Namespace pod
       /\ Pod.Annotations pod !! AnnotationKeyPodIdentity e = None
       /\ exists t cluster id idStr,
            getParentCluster e pod = (t, Ok cluster)
            /\ podIdentity e pod cluster = Ok id
            /\ identityJSON e id = Ok idStr
            /\ updated = withAnnotation pod (AnnotationKeyPodIdentity e) idStr
            /\ Pod.Annotations updated !! AnnotationKeyPodIdentity e = Some idStr
            /\ (forall key, key <> AnnotationKeyPodIdentity e ->
                  Pod.Annotations updated !! key = Pod.Annotations pod !! key)
            /\ Pod.Name updated = Pod.Name pod
            /\ Pod.Namespace updated = Pod.Namespace pod
            /\ ObjectMeta.UID (Pod.ObjectMeta updated) = ObjectMeta.UID (Pod.ObjectMeta pod)
            /\ Pod.Labels updated = Pod.Labels pod
            /\ ObjectMeta.OwnerReferences (Pod.ObjectMeta updated)
               = ObjectMeta.OwnerReferences (Pod.ObjectMeta pod).
Proof.
  split; [apply handlePodUpdate_calls|].
  intros namespace updated.
  pod_paths e pod; intros Hin; simpl in Hin;
    repeat (destruct Hin as [Hin|Hin]; [try discriminate Hin|]); try done.
  all: injection Hin as <- <-.
  all: split; [done|]; split; [done|].
  all: eexists _, _, id, idStr; repeat split; try done.
  all: unfold Pod.Annotations, ObjectMeta.Annotations; simpl.
  all: try apply lookup_insert_eq.
  all: intros key Hkey; by apply lookup_insert_ne.
Qed.

Lemma pod_update_carries_identity_witness :
  exists updated,
    In (PodUpdate "prod" updated) (handlePodUpdate Cases.env_fresh Cases.fresh).1
    /\ Pod.Annotations Cases.fresh !! Sample.identityKey = None
    /\ Pod.Annotations updated !! Sample.identityKey = Some "{name:m3-0-0}".
Proof.
  exists (withAnnotation Cases.fresh Sample.identityKey "{name:m3-0-0}").
  assert (Hin : In (PodUpdate "prod"
                      (withAnnotation Cases.fresh Sample.identityKey "{name:m3-0-0}"))
                   (handlePodUpdate Cases.env_fresh Cases.fresh).1).
  { vm_compute. tauto. }
  split; [exact Hin|].
  destruct (proj2 (pod_update_carries_identity Cases.env_fresh Cases.fresh) _ _ Hin)
    as (_ & Habsent & t & cluster & id & idStr & _ & Hid & Hjson & _ & Hcarried & _).
  split; [exact Habsent|].
  vm_compute in Hid. injection Hid as <-.
  vm_compute in Hjson. injection Hjson as <-.
  exact Hcarried.
Defined.

(** ** The workers *)

Lemma handleClusterEvent_no_queue (e : Env) (key : string) :
  count isQueueCall (handleClusterEvent e key).1 = 0%nat.
Proof.
  unfold handleClusterEvent.
  destruct (SplitMetaNamespaceKey key) as [[namespace name]|err]; [|done].
  destruct (clusterGet e namespace name) as [cluster| | |]; try done.
  pose proof (handleClusterUpdate_calls e cluster) as Hall.
  destruct (handleClusterUpdate e cluster) as [t o]. simpl in *.
  eapply Forall_count_0; [exact Hall|]. intros c; by destruct c.
Qed.

Lemma handlePodEvent_no_queue (e : Env) (key : string) :
  count isQueueCall (handlePodEvent e key).1 = 0%nat.
Proof.
  unfold handlePodEvent.
  destruct (SplitMetaNamespaceKey key) as [[namespace name]|err]; [|done].
  destruct (podGet e namespace name) as [pod| | |]; try done.
  destruct (handlePodUpdate_calls e pod) as [Hall _].
  destruct (handlePodUpdate e pod) as [t o]. simpl in *.
  eapply Forall_count_0; [exact Hall|]. intros c; by destruct c.
Qed.

Lemma processQueueItem_marks (q : Queue) (level : Level)
    (handle : string -> list Call * Outcome) (item : QueueItem) :
  (forall key, count isQueueCall (handle key).1 = 0%nat) ->
  count isEnqueue (processQueueItem q level handle item).1 = 0%nat
  /\ count isDone (processQueueItem q level handle item).1
     = match item with QShutdown => 0%nat | _ => 1%nat end
  /\ count isForget (processQueueItem q level handle item).1
     = match item with
       | QShutdown => 0%nat
       | QOther _ => 1%nat
       | QString key =>
           match (handle key).2 with Return None => 1%nat | _ => 0%nat end
       end
  /\ ((processQueueItem q level handle item).2 = Some false <-> item = QShutdown).
Proof.
  intros Hquiet. destruct item as [|key|repr]; simpl; [done| |done].
  specialize (Hquiet key).
  assert (He : count isEnqueue (handle key).1 = 0%nat).
  { pose proof (count_le isEnqueue isQueueCall (handle key).1) as Hle.
    enough (count isEnqueue (handle key).1 <= count isQueueCall (handle key).1)%nat
      by lia. apply Hle. intros c; by destruct c. }
  assert (Hd : count isDone (handle key).1 = 0%nat).
  { pose proof (count_le isDone isQueueCall (handle key).1) as Hle.
    enough (count isDone (handle key).1 <= count isQueueCall (handle key).1)%nat
      by lia. apply Hle. intros c; by destruct c. }
  assert (Hf : count isForget (handle key).1 = 0%nat).
  { pose proof (count_le isForget isQueueCall (handle key).1) as Hle.
    enough (count isForget (handle key).1 <= count isQueueCall (handle key).1)%nat
      by lia. apply Hle. intros c; by destruct c. }
  destruct (handle key) as [t [[err|]|msg]]; simpl in *;
    rewrite !count_app, He, Hd, Hf; simpl; repeat split; try done; intros [=].
Qed.

(** X6: a worker marks every dequeued item done exactly once, also when the
    handler fails or panics; it forgets the key exactly when the handler
    returned nil (or the item is no string); it never adds a key to a queue,
    so a failed key is not enqueued again by the worker; and it returns false
    exactly on shutdown.  This holds for the cluster and the pod worker. *)
Theorem workers_mark_done_and_never_requeue (e : Env) (item : QueueItem) :
  let done_ := match item with QShutdown => 0%nat | _ => 1%nat end in
  (count isEnqueue (processClusterQueueItem e item).1 = 0%nat
   /\ count isDone (processClusterQueueItem e item).1 = done_
   /\ count isForget (processClusterQueueItem e item).1
      = match item with
        | QShutdown => 0%nat
        | QOther _ => 1%nat
        | QString key =>
            match (handleClusterEvent e key).2 with
            | Return None => 1%nat
            | _ => 0%nat
            end
        end
   /\ ((processClusterQueueItem e item).2 = Some false <-> item = QShutdown))
  /\ (count isEnqueue (processPodQueueItem e item).1 = 0%nat
      /\ count isDone (processPodQueueItem e item).1 = done_
      /\ count isForget (processPodQueueItem e item).1
         = match item with
           | QShutdown => 0%nat
           | QOther _ => 1%nat
           | QString key =>
               match (handlePodEvent e key).2 with
               | Return None => 1%nat
               | _ => 0%nat
               end
           end
      /\ ((processPodQueueItem e item).2 = Some false <-> item = QShutdown)).
Proof.
  intros done_. split.
  - apply processQueueItem_marks, handleClusterEvent_no_queue.
  - apply processQueueItem_marks, handlePodEvent_no_queue.
Qed.

(** ** Stateful-set events *)

Lemma enqueueOwner_enqueues (e : Env) (object : ObjectMeta.t) (q : Queue)
    (key : string) :
  In (AddRateLimited q key) (enqueueOwner e object).1 ->
  q = clusterWorkQueue
  /\ exists owner cluster,
       GetControllerOf object = Some owner
       /\ OwnerReference.Kind owner = "m3dbcluster"
       /\ clusterGet e (ObjectMeta.Namespace object) (OwnerReference.Name owner)
          = GotObject cluster
       /\ key = MetaNamespaceKey (M3DBCluster.ObjectMeta cluster).
Proof.
  unfold enqueueOwner.
  destruct (GetControllerOf object) as [owner|]; simpl; [|intuition discriminate].
  destruct (String.eqb_spec (OwnerReference.Kind owner) "m3dbcluster") as [Hkind|_];
    simpl; [|intuition discriminate].
  destruct (clusterGet e _ _) as [cluster| | |] eqn:Hget; simpl;
    try intuition discriminate.
  intros [Hin|[Hin|[Hin|[Hin|[]]]]]; try discriminate.
  injection Hin as <- <-. split; [done|]. by exists owner, cluster.
Qed.

(** X7: a stateful-set event enqueues a key only on the cluster queue, and
    only the key of the cluster that the lister returns for the controller
    owner reference, of kind "m3dbcluster", of the set (in the namespace of
    the set); a tombstone around a set is handled as the set itself, after
    one log line. *)
Theorem only_the_owning_cluster_is_enqueued (e : Env) (obj : Object) :
  (forall q key,
     In (AddRateLimited q key) (handleStatefulSetUpdate e obj).1 ->
     q = clusterWorkQueue
     /\ exists object owner cluster,
          (obj = MetaObject object \/ obj = DeletedFinalStateUnknown (Some object))
          /\ GetControllerOf object = Some owner
          /\ OwnerReference.Kind owner = "m3dbcluster"
          /\ clusterGet e (ObjectMeta.Namespace object) (OwnerReference.Name owner)
             = GotObject cluster
          /\ key = MetaNamespaceKey (M3DBCluster.ObjectMeta cluster))
  /\ (forall object,
        obj = DeletedFinalStateUnknown (Some object) ->
        handleStatefulSetUpdate e obj
        = (Log Info "recovered object from tombstone"
             [zap_String "name" (ObjectMeta.Name object)]
             :: (handleStatefulSetUpdate e (MetaObject object)).1,
           (handleStatefulSetUpdate e (MetaObject object)).2)).
Proof.
  split.
  - intros q key. destruct obj as [object| |[object|]|]; simpl;
      try intuition discriminate.
    + intros Hin. destruct (enqueueOwner_enqueues e object q key Hin)
        as (Hq & owner & cluster & H). split; [done|].
      exists object, owner, cluster. split; [by left|done].
    + destruct (enqueueOwner e object) as [t o] eqn:Henq. simpl.
      intros [Hin|Hin]; [discriminate|].
      destruct (enqueueOwner_enqueues e object q key) as (Hq & owner & cluster & H);
        [by rewrite Henq|].
      split; [done|]. exists object, owner, cluster. split; [by right|done].
  - intros object ->. simpl. by destruct (enqueueOwner e object).
Qed.

Lemma only_the_owning_cluster_is_enqueued_witness :
  In (AddRateLimited clusterWorkQueue "prod/m3")
     (handleStatefulSetUpdate Scenario.env_one
        (DeletedFinalStateUnknown
           (Some (StatefulSet.ObjectMeta Scenario.set_a)))).1
  /\ clusterWorkQueue = clusterWorkQueue.
Proof.
  assert (Hin : In (AddRateLimited clusterWorkQueue "prod/m3")
                   (handleStatefulSetUpdate Scenario.env_one
                      (DeletedFinalStateUnknown
                         (Some (StatefulSet.ObjectMeta Scenario.set_a)))).1).
  { vm_compute. tauto. }
  split; [exact Hin|].
  exact (proj1 (proj1 (only_the_owning_cluster_is_enqueued Scenario.env_one _)
                  _ _ Hin)).
Defined.

(** ** The child sets of a cluster *)

Lemma IsControlledBy_spec (o owner : ObjectMeta.t) :
  IsControlledBy o owner = true <->
  exists ref,
    GetControllerOf o = Some ref /\ OwnerReference.UID ref = ObjectMeta.UID owner.
Proof.
  unfold IsControlledBy. destruct (GetControllerOf o) as [ref|].
  - rewrite String.eqb_eq. split; [by exists ref|]. by intros (? & [= <-] & ?).
  - split; [done|]. by intros (? & ? & _).
Qed.

Lemma List_filter_sublist {A} (f : A -> bool) (l : list A) :
  List.filter f l `sublist_of` l.
Proof.
  induction l as [|x l IH]; simpl; [constructor|].
  destruct (f x); by constructor.
Qed.

Lemma selector_matches_spec (sel labels : gmap string string) :
  selector_matches sel labels = true <->
  ((forall k v, sel !! k = Some v ->
                IsQualifiedName k = true /\ IsValidLabelValue v = true) ->
   forall k v, sel !! k = Some v -> labels !! k = Some v).
Proof.
  unfold selector_matches, AsSelector.
  destruct (forallb _ (map_to_list sel)) eqn:Hvalid.
  - rewrite List.forallb_forall in Hvalid. rewrite List.forallb_forall. split.
    + intros H _ k v Hkv.
      apply (bool_decide_eq_true_1 (labels !! k = Some v)).
      apply (H (k, v)). by apply list_elem_of_In, elem_of_map_to_list.
    + intros H [k v] Hin. apply bool_decide_eq_true_2. simpl.
      apply list_elem_of_In, elem_of_map_to_list in Hin. apply H; [|done].
      intros k' v' Hkv'. apply andb_true_iff.
      apply (Hvalid (k', v')). by apply list_elem_of_In, elem_of_map_to_list.
  - split; [|done]. intros _ Hall. exfalso.
    apply not_true_iff_false in Hvalid. apply Hvalid.
    apply List.forallb_forall. intros [k v] Hin. apply andb_true_iff.
    apply Hall. by apply list_elem_of_In, elem_of_map_to_list in Hin.
Qed.

(** X8: when the listing succeeds, [getChildStatefulSets] returns, in cache
    order, exactly the cached sets that lie in the cluster's namespace (in
    any namespace when the cluster's namespace is empty), that carry every
    label of the cluster (whatever their labels when a key or a value of the
    cluster's labels is not valid, since the selector made of them then
    matches everything), and whose controller owner reference, the first
    reference marked as controller, carries the cluster's UID; when the
    listing fails it returns that error and reports it. *)
Theorem children_are_the_controlled_sets (e : Env) (read : nat)
    (cluster : M3DBCluster.t) :
  (statefulSetListErr e read = None ->
   exists sets,
     getChildStatefulSets e read cluster
     = ([StatefulSetList (M3DBCluster.Namespace cluster) (M3DBCluster.Labels cluster)],
        Ok sets)
     /\ sets `sublist_of` statefulSetCache e read
     /\ forall s,
          In s sets <->
          In s (statefulSetCache e read)
          /\ (M3DBCluster.Namespace cluster = EmptyString
              \/ StatefulSet.Namespace s = M3DBCluster.Namespace cluster)
          /\ ((forall k v, M3DBCluster.Labels cluster !! k = Some v ->
                           IsQualifiedName k = true /\ IsValidLabelValue v = true) ->
              forall k v, M3DBCluster.Labels cluster !! k = Some v ->
                          StatefulSet.Labels s !! k = Some v)
          /\ exists ref,
               GetControllerOf (StatefulSet.ObjectMeta s) = Some ref
               /\ OwnerReference.UID ref = M3DBCluster.UID cluster)
  /\ (forall err,
        statefulSetListErr e read = Some err ->
        getChildStatefulSets e read cluster
        = ([StatefulSetList (M3DBCluster.Namespace cluster) (M3DBCluster.Labels cluster);
            HandleError ("error listing statefulsets: " +:+ err)], Err err)).
Proof.
  unfold getChildStatefulSets, statefulSetLister_List. split.
  - intros ->. eexists. split; [done|]. split.
    + etrans; apply List_filter_sublist.
    + intros s. rewrite !filter_In, andb_true_iff, selector_matches_spec.
      unfold in_namespace. rewrite orb_true_iff, !String.eqb_eq.
      rewrite IsControlledBy_spec. unfold M3DBCluster.UID. tauto.
  - by intros err ->.
Qed.

Lemma children_are_the_controlled_sets_witness :
  length (statefulSetCache Cases.env_mixed 0) = 6%nat
  /\ exists sets,
       getChildStatefulSets Cases.env_mixed 0 Cases.m3_labeled
       = ([StatefulSetList "prod" Cases.appLabels], Ok sets)
       /\ sets = [Cases.child_first; Cases.child_second].
Proof.
  split; [reflexivity|].
  destruct (proj1 (children_are_the_controlled_sets Cases.env_mixed 0
                     Cases.m3_labeled) eq_refl) as (sets & Heq & _).
  exists sets. split; [exact Heq|].
  vm_compute in Heq. injection Heq as <-. reflexivity.
Defined.

(** ** Instances by isolation group *)

Lemma list_sum_map_add {A} (a b : A -> nat) (l : list A) :
  list_sum (map (fun x => a x + b x)%nat l)
  = (list_sum (map a l) + list_sum (map b l))%nat.
Proof. induction l as [|x l IH]; simpl; [done|]. rewrite IH. lia. Qed.

Lemma list_sum_map_0 {A} (a : A -> nat) (l : list A) :
  (forall x, In x l -> a x = 0%nat) -> list_sum (map a l) = 0%nat.
Proof.
  induction l as [|x l IH]; simpl; [done|]. intros H.
  rewrite (H x (or_introl eq_refl)), IH; [done|]. intros y Hy. apply H. by right.
Qed.

Lemma list_sum_indicator (x : string) (names : list string) :
  List.NoDup names -> In x names ->
  list_sum (map (fun g => if String.eqb x g then 1 else 0)%nat names) = 1%nat.
Proof.
  induction 1 as [|y names Hnotin Hnodup IH]; [done|]. simpl.
  intros [->|Hin].
  - rewrite String.eqb_refl, list_sum_map_0; [done|].
    intros g Hg. destruct (String.eqb_spec x g) as [->|]; done.
  - destruct (String.eqb_spec x y) as [->|_]; [done|]. by rewrite IH.
Qed.

(** X9: [instancesInIsoGroup] returns exactly the instances of the placement
    that lie in the group; over a list of distinct group names that covers
    the groups of all instances, the group sizes add up to the size of the
    placement, so no instance is counted twice or left out. *)
Theorem instances_split_by_group (pl : Placement.t) :
  (forall g inst,
     In inst (instancesInIsoGroup pl g) <->
     In inst (Placement.Instances pl) /\ Instance.IsolationGroup inst = g)
  /\ (forall names,
        List.NoDup names ->
        (forall inst, In inst (Placement.Instances pl) ->
                      In (Instance.IsolationGroup inst) names) ->
        list_sum (map (fun g => length (instancesInIsoGroup pl g)) names)
        = Placement.NumInstances pl).
Proof.
  split.
  - intros g inst. unfold instancesInIsoGroup. by rewrite filter_In, String.eqb_eq.
  - intros names Hnodup. unfold instancesInIsoGroup, Placement.NumInstances.
    induction (Placement.Instances pl) as [|inst l IH]; intros Hcover; simpl.
    + by apply list_sum_map_0.
    + rewrite (map_ext _
                 (fun g => (if String.eqb (Instance.IsolationGroup inst) g
                            then 1 else 0)
                           + length (List.filter
                                       (fun i => String.eqb (Instance.IsolationGroup i) g)
                                       l))%nat)
        by (intros g; by destruct (String.eqb _ g)).
      rewrite list_sum_map_add, IH by (intros; apply Hcover; by right).
      rewrite list_sum_indicator; [done|done|]. apply Hcover. by left.
Qed.

Lemma instances_split_by_group_witness :
  list_sum (map (fun g => length (instancesInIsoGroup Cases.placement_ab g)) ["a"; "b"])
  = 3%nat.
Proof.
  assert (Hnodup : List.NoDup ["a"; "b"]).
  { repeat constructor; simpl; intuition discriminate. }
  apply (proj2 (instances_split_by_group Cases.placement_ab) ["a"; "b"] Hnodup).
  intros inst [<-|[<-|[<-|[]]]]; simpl; tauto.
Defined.

(** ** Resizing *)

(** X10: the only stateful-set update the per-set decision issues is a
    resize of this set by exactly one replica towards the desired count
    ([|desired - new| = |desired - current| - 1]), leaving its metadata as it
    is; and it is issued only when the placement holds no more instances of
    the group than desired, so a set is never scaled in ahead of the
    placement. *)
Theorem resize_is_one_step_towards_desired (e : Env) (cluster : M3DBCluster.t)
    (placement : Placement.t) (set : StatefulSet.t) (group : IsolationGroup.t)
    (current : Z) (namespace : string) (updated : StatefulSet.t) :
  StatefulSet.Spec_Replicas set = Some current ->
  int32_range current ->
  int32_range (IsolationGroup.NumInstances group) ->
  In (StatefulSetUpdate namespace updated)
    (scaleSet e cluster placement set group).1 ->
  let desired := IsolationGroup.NumInstances group in
  let inPlacement :=
    int32 (Z.of_nat (length (instancesInIsoGroup placement
                               (IsolationGroup.Name group)))) in
  exists new,
    StatefulSet.Spec_Replicas updated = Some new
    /\ Z.abs (desired - new) = (Z.abs (desired - current) - 1)%Z
    /\ (inPlacement <= desired)%Z
    /\ StatefulSet.ObjectMeta updated = StatefulSet.ObjectMeta set
    /\ namespace = StatefulSet.Namespace set.
Proof.
  intros Hreplicas Hcurrent Hdesired Hin desired inPlacement.
  destruct (scaleSet_decision e cluster placement set group current
              Hreplicas Hcurrent Hdesired) as (Hskip & Hexpand & Hshrink & Hresize).
  fold desired inPlacement in Hskip, Hexpand, Hshrink, Hresize.
  destruct (Z_lt_le_dec desired inPlacement) as [Hdi|Hid].
  { rewrite (Hshrink Hdi) in Hin. simpl in Hin. destruct Hin as [|Hin]; [done|].
    unfold shrinkPlacementForSet in Hin.
    destruct (podLister_List _ _ _); simpl in Hin; [|intuition discriminate].
    destruct (highestOrdinal e _); simpl in Hin; intuition discriminate. }
  destruct (Z.eq_dec desired current) as [Hdc|Hdc].
  { destruct (Z.eq_dec current inPlacement) as [Hci|Hci].
    - by rewrite (Hskip Hdc Hci) in Hin.
    - rewrite Hexpand in Hin by lia. simpl in Hin. destruct Hin as [|Hin]; [done|].
      unfold expandPlacementForSet in Hin.
      destruct (podLister_List _ _ _); simpl in Hin; intuition discriminate. }
  rewrite Hresize in Hin by lia. simpl in Hin.
  destruct Hin as [|[Hin|[]]]; [done|]. injection Hin as <- <-.
  eexists. split; [done|]. repeat split; try done.
  destruct (Z.ltb_spec current desired); lia.
Qed.

Lemma resize_is_one_step_towards_desired_witness :
  exists new,
    StatefulSet.Spec_Replicas
      {| StatefulSet.ObjectMeta := StatefulSet.ObjectMeta Cases.set_a_large;
         StatefulSet.Spec_Replicas := Some 2%Z;
         StatefulSet.Status_ReadyReplicas := 3%Z |} = Some new
    /\ Z.abs (1 - new) = (Z.abs (1 - 3) - 1)%Z.
Proof.
  assert (H1 : int32_range 1) by (unfold int32_range, int32_min, int32_max; lia).
  assert (H3 : int32_range 3) by (unfold int32_range, int32_min, int32_max; lia).
  destruct (resize_is_one_step_towards_desired Scenario.env_one Scenario.m3_one
              {| Placement.Instances := [Sample.instance "m3-0-0" "a"] |}
              Cases.set_a_large (Sample.group "a" 1) 3%Z "prod"
              {| StatefulSet.ObjectMeta := StatefulSet.ObjectMeta Cases.set_a_large;
                 StatefulSet.Spec_Replicas := Some 2%Z;
                 StatefulSet.Status_ReadyReplicas := 3%Z |}
              eq_refl H3 H1) as (new & Hnew & Hstep & _).
  { vm_compute. tauto. }
  exists new. split; [exact Hnew|exact Hstep].
Defined.

(** X11: a tick that gets, in the loop over the child sets, to a set without
    the isolation-group label returns the error "statefulset <name> has no
    isolation-group label"; to one whose label names no isolation group of the
    spec, the error "zone <zone> not found in cluster isoGroups ...".  Either
    way it has issued no group write and no placement write. *)
Theorem unknown_group_of_a_set_is_an_error (e : Env) (cluster : M3DBCluster.t)
    (t0 : list Call) (isoGroups : list IsolationGroup.t) (placement : Placement.t)
    (pre rest : list StatefulSet.t) (set : StatefulSet.t) :
  beforeScaling e cluster = (t0, Next (isoGroups, placement, pre ++ set :: rest)) ->
  scaleSets e cluster isoGroups placement pre = ([], Next tt) ->
  (StatefulSet.Labels set !! labels_IsolationGroup e = None ->
   handleClusterUpdate e cluster
   = (t0, Return (Some ("statefulset " +:+ StatefulSet.Name set
                        +:+ " has no isolation-group label"))))
  /\ (forall zone,
        StatefulSet.Labels set !! labels_IsolationGroup e = Some zone ->
        GetByName isoGroups zone = None ->
        handleClusterUpdate e cluster
        = (t0, Return (Some ("zone " +:+ zone +:+ " not found in cluster isoGroups "
                             +:+ fmt_v_groups isoGroups))))
  /\ count isGroupWrite t0 = 0%nat
  /\ count isPlacementWrite t0 = 0%nat.
Proof.
  intros Hreach Hpre.
  rewrite (handleClusterUpdate_at_scaling _ _ _ _ _ _ Hreach).
  rewrite scaleSets_app, Hpre. simpl. repeat split.
  - intros ->. simpl. by rewrite app_nil_r.
  - intros zone -> ->. simpl. by rewrite app_nil_r.
  - pose proof (beforeScaling_ram e cluster) as Hram. rewrite Hreach in Hram.
    simpl in Hram. rewrite count_topology in Hram. lia.
  - pose proof (beforeScaling_ram e cluster) as Hram. rewrite Hreach in Hram.
    simpl in Hram. rewrite count_topology in Hram. lia.
Qed.

Lemma unknown_group_of_a_set_is_an_error_witness :
  handleClusterUpdate Cases.env_unlabeled Scenario.m3_live
  = ([StatefulSetList "prod" ∅; NamespaceList; PodList "prod" ∅; PlacementGet;
      Log Info "found placement"
        [zap_Int "currentPods" 0; zap_Int "placementInsts" 1];
      StatefulSetList "prod" ∅],
     Return (Some "statefulset m3-0 has no isolation-group label")).
Proof.
  exact (proj1 (unknown_group_of_a_set_is_an_error Cases.env_unlabeled Scenario.m3_live
                  _ [Sample.group "a" 1]
                  {| Placement.Instances := [Sample.instance "m3-0-0" "a"] |}
                  [] [] Cases.set_unlabeled eq_refl eq_refl) eq_refl).
Defined.

(** ** Keys *)

Lemma split_slash_no_slash (s acc : string) :
  has_slash s = false -> split_slash s acc = [String.rev_app acc s].
Proof.
  revert acc. induction s as [|c r IH]; intros acc; simpl; [done|].
  intros [Hc Hr]%orb_false_iff. rewrite Hc. by rewrite IH.
Qed.

Lemma split_slash_app (s1 s2 acc : string) :
  has_slash s1 = false ->
  split_slash (s1 +:+ String "/"%char s2) acc
  = String.rev_app acc s1 :: split_slash s2 EmptyString.
Proof.
  revert acc. induction s1 as [|c r IH]; intros acc; simpl; [done|].
  intros [Hc Hr]%orb_false_iff. rewrite Hc. by rewrite IH.
Qed.

Lemma SplitMetaNamespaceKey_of_key (meta : ObjectMeta.t) :
  has_slash (ObjectMeta.Namespace meta) = false ->
  has_slash (ObjectMeta.Name meta) = false ->
  SplitMetaNamespaceKey (MetaNamespaceKey meta)
  = Ok (ObjectMeta.Namespace meta, ObjectMeta.Name meta).
Proof.
  intros Hns Hname. unfold SplitMetaNamespaceKey, MetaNamespaceKey.
  destruct (String.eqb_spec (ObjectMeta.Namespace meta) EmptyString) as [Heq|_].
  - rewrite split_slash_no_slash by done. simpl. by rewrite Heq.
  - change ("/" +:+ ObjectMeta.Name meta) with (String "/"%char (ObjectMeta.Name meta)).
    rewrite split_slash_app by done. by rewrite split_slash_no_slash.
Qed.

(** X12: the key that [enqueueCluster] or [enqueuePod] puts on its queue for
    an object whose namespace and name hold no slash leads the event handler
    back to that namespace and name: [handleClusterEvent] looks the cluster
    up there and runs the cluster handler on what the lister returns,
    [handlePodEvent] does the same for the pod. *)
Theorem enqueued_key_leads_back_to_its_object (e : Env) (meta : ObjectMeta.t) :
  has_slash (ObjectMeta.Namespace meta) = false ->
  has_slash (ObjectMeta.Name meta) = false ->
  let namespace := ObjectMeta.Namespace meta in
  let name := ObjectMeta.Name meta in
  (forall key,
     In (AddRateLimited clusterWorkQueue key) (enqueueCluster (MetaObject meta)).1 ->
     forall cluster,
       clusterGet e namespace name = GotObject cluster ->
       handleClusterEvent e key
       = (ClusterGet namespace name :: (handleClusterUpdate e cluster).1,
          (handleClusterUpdate e cluster).2))
  /\ (forall key,
        In (AddRateLimited podWorkQueue key) (enqueuePod (MetaObject meta)).1 ->
        forall pod,
          podGet e namespace name = GotObject pod ->
          handlePodEvent e key
          = (PodGet namespace name :: (handlePodUpdate e pod).1,
             (handlePodUpdate e pod).2)).
Proof.
  intros Hns Hname namespace name.
  pose proof (SplitMetaNamespaceKey_of_key meta Hns Hname) as Hsplit.
  split; intros key [Hin|[Hin|[]]]; try discriminate; injection Hin as <-.
  - intros cluster Hget. unfold handleClusterEvent. rewrite Hsplit.
    fold namespace name. rewrite Hget. by destruct (handleClusterUpdate e cluster).
  - intros pod Hget. unfold handlePodEvent. rewrite Hsplit.
    fold namespace name. rewrite Hget. by destruct (handlePodUpdate e pod).
Qed.

Lemma enqueued_key_leads_back_to_its_object_witness :
  handleClusterEvent Scenario.env_one "prod/m3"
  = (ClusterGet "prod" "m3" :: (handleClusterUpdate Scenario.env_one Scenario.m3_one).1,
     (handleClusterUpdate Scenario.env_one Scenario.m3_one).2).
Proof.
  exact (proj1 (enqueued_key_leads_back_to_its_object Scenario.env_one
                  (M3DBCluster.ObjectMeta Scenario.m3_one) eq_refl eq_refl)
           "prod/m3" (or_introl eq_refl) Scenario.m3_one eq_refl).
Defined.

(** X13: a key that cannot be split into namespace and name, or that names a
    cluster the lister does not find any more, is dropped: the tick returns
    nil without any mutation and the worker forgets the key.  A nil cluster
    from the lister is an error, and the key is not forgotten. *)
Theorem stale_cluster_key_is_dropped (e : Env) (key : string) :
  ((exists err, SplitMetaNamespaceKey key = Err err)
   \/ (exists namespace name err,
         SplitMetaNamespaceKey key = Ok (namespace, name)
         /\ clusterGet e namespace name = GotNotFound err) ->
   (handleClusterEvent e key).2 = Return None
   /\ count isMutation (handleClusterEvent e key).1 = 0%nat
   /\ count isForget (processClusterQueueItem e (QString key)).1 = 1%nat)
  /\ (forall namespace name,
        SplitMetaNamespaceKey key = Ok (namespace, name) ->
        clusterGet e namespace name = GotNil ->
        handleClusterEvent e key
        = ([ClusterGet namespace name], Return (Some ("got nil cluster for " +:+ key)))
        /\ count isForget (processClusterQueueItem e (QString key)).1 = 0%nat).
Proof.
  unfold processClusterQueueItem, processQueueItem, handleClusterEvent. split.
  - intros [[err ->]|(namespace & name & err & -> & ->)]; done.
  - intros namespace name -> ->. done.
Qed.

Lemma stale_cluster_key_is_dropped_witness :
  (handleClusterEvent Scenario.env_one "prod/gone").2 = Return None
  /\ count isMutation (handleClusterEvent Scenario.env_one "prod/gone").1 = 0%nat
  /\ count isForget
       (processClusterQueueItem Scenario.env_one (QString "prod/gone")).1 = 1%nat.
Proof.
  apply (proj1 (stale_cluster_key_is_dropped Scenario.env_one "prod/gone")).
  right. exists "prod", "gone", "not found". split; reflexivity.
Defined.

(** ** The worker loops *)

Lemma runLoop_stops {W : Type} (process : W -> QueueItem -> list Call * option bool)
    (pre rest : list (W * QueueItem)) (w : W) :
  (forall w' item, (process w' item).2 = Some false <-> item = QShutdown) ->
  Forall (fun d => d.2 <> QShutdown /\ (process d.1 d.2).2 <> None) pre ->
  runLoop process (pre ++ (w, QShutdown) :: rest)
  = (flat_map (fun d => (process d.1 d.2).1) pre ++ (process w QShutdown).1, Stopped).
Proof.
  intros Hfalse. induction 1 as [|[w' item] pre [Hitem Hpanic] _ IH]; simpl in *.
  - destruct (process w QShutdown) as [t [[]|]] eqn:Hp; simpl.
    + pose proof (proj2 (Hfalse w QShutdown) eq_refl) as H. rewrite Hp in H. done.
    + done.
    + pose proof (proj2 (Hfalse w QShutdown) eq_refl) as H. rewrite Hp in H. done.
  - rewrite IH.
    destruct (process w' item) as [t [[]|]] eqn:Hp; simpl in *.
    + by rewrite app_assoc.
    + exfalso. apply Hitem. apply (Hfalse w' item). by rewrite Hp.
    + done.
Qed.

(** X14: a worker loop handles the items delivered before the shutdown, in
    order, each marked done once, and stops at the shutdown without touching
    what the queue would deliver after it (as long as no handler panics).
    This holds for the cluster and for the pod loop. *)
Theorem worker_loops_stop_at_shutdown (pre rest : list (Env * QueueItem)) (e : Env) :
  Forall (fun d => d.2 <> QShutdown) pre ->
  (Forall (fun d => (processClusterQueueItem d.1 d.2).2 <> None) pre ->
   runClusterLoop (pre ++ (e, QShutdown) :: rest)
   = (flat_map (fun d => (processClusterQueueItem d.1 d.2).1) pre
        ++ [CounterInc "dequeued_event"], Stopped)
   /\ count isDone (runClusterLoop (pre ++ (e, QShutdown) :: rest)).1 = length pre)
  /\ (Forall (fun d => (processPodQueueItem d.1 d.2).2 <> None) pre ->
      runPodLoop (pre ++ (e, QShutdown) :: rest)
      = (flat_map (fun d => (processPodQueueItem d.1 d.2).1) pre
           ++ [CounterInc "dequeued_event"], Stopped)
      /\ count isDone (runPodLoop (pre ++ (e, QShutdown) :: rest)).1 = length pre).
Proof.
  intros Hitems. split; intros Hpanic.
  - assert (Hrun : runClusterLoop (pre ++ (e, QShutdown) :: rest)
                   = (flat_map (fun d => (processClusterQueueItem d.1 d.2).1) pre
                        ++ [CounterInc "dequeued_event"], Stopped)).
    { unfold runClusterLoop.
      rewrite (runLoop_stops processClusterQueueItem pre rest e); [done| |].
      - intros w item.
        apply (processQueueItem_marks clusterWorkQueue Info (handleClusterEvent w) item
                 (handleClusterEvent_no_queue w)).
      - rewrite Forall_forall in *. intros d Hd. split; [by apply Hitems|by apply Hpanic]. }
    split; [done|]. rewrite Hrun. simpl. rewrite count_app. simpl.
    clear Hrun Hpanic. induction Hitems as [|[w item] pre Hitem _ IH]; [done|].
    simpl in *. rewrite count_app.
    destruct (processQueueItem_marks clusterWorkQueue Info (handleClusterEvent w) item
                (handleClusterEvent_no_queue w)) as (_ & Hdone & _).
    fold (processClusterQueueItem w item) in Hdone. rewrite Hdone.
    destruct item; [done| |]; lia.
  - assert (Hrun : runPodLoop (pre ++ (e, QShutdown) :: rest)
                   = (flat_map (fun d => (processPodQueueItem d.1 d.2).1) pre
                        ++ [CounterInc "dequeued_event"], Stopped)).
    { unfold runPodLoop.
      rewrite (runLoop_stops processPodQueueItem pre rest e); [done| |].
      - intros w item.
        apply (processQueueItem_marks podWorkQueue Debug (handlePodEvent w) item
                 (handlePodEvent_no_queue w)).
      - rewrite Forall_forall in *. intros d Hd. split; [by apply Hitems|by apply Hpanic]. }
    split; [done|]. rewrite Hrun. simpl. rewrite count_app. simpl.
    clear Hrun Hpanic. induction Hitems as [|[w item] pre Hitem _ IH]; [done|].
    simpl in *. rewrite count_app.
    destruct (processQueueItem_marks podWorkQueue Debug (handlePodEvent w) item
                (handlePodEvent_no_queue w)) as (_ & Hdone & _).
    fold (processPodQueueItem w item) in Hdone. rewrite Hdone.
    destruct item; [done| |]; lia.
Qed.

Lemma worker_loops_stop_at_shutdown_witness :
  runClusterLoop [(Scenario.env_one, QString "prod/gone");
                  (Scenario.env_one, QShutdown);
                  (Scenario.env_one, QString "prod/m3")]
  = ([CounterInc "dequeued_event"; ClusterGet "prod" "gone";
      HandleError "clusters 'prod/gone' no longer exists";
      Forget clusterWorkQueue "prod/gone";
      Log Info "successfully synced item" [zap_String "key" "prod/gone"];
      Done clusterWorkQueue "prod/gone";
      CounterInc "dequeued_event"], Stopped).
Proof.
  assert (Hitems : Forall (fun d : Env * QueueItem => d.2 <> QShutdown)
                     [(Scenario.env_one, QString "prod/gone")])
    by (repeat constructor; discriminate).
  assert (Hpanic : Forall (fun d : Env * QueueItem =>
                             (processClusterQueueItem d.1 d.2).2 <> None)
                     [(Scenario.env_one, QString "prod/gone")])
    by (repeat constructor; discriminate).
  exact (proj1 (proj1 (worker_loops_stop_at_shutdown
                         [(Scenario.env_one, QString "prod/gone")]
                         [(Scenario.env_one, QString "prod/m3")]
                         Scenario.env_one Hitems) Hpanic)).
Defined.
